(** * Trend detection and automated response: a shallow embedding

    This development embeds the decision core of the content-safety agent:
    the escalation rule engine and response executor of
    [src/services/AutomatedResponseService.ts] and the trend scorer, ledger
    and warning emitter of [src/services/TrendAnalysisService.ts].

    Conventions of the embedding.
    - A JavaScript [number] is an IEEE-754 binary64 value, so it is Rocq's
      primitive [float]; comparisons, arithmetic, NaN and signed zeros are
      the machine's.  Decimal literals denote the nearest double, in
      TypeScript as here.
    - String unions such as ['low' | 'medium' | 'high' | 'critical'] are
      enumerations together with their rendering as strings.
    - MongoDB and Redis are finite maps; Bull queues are lists of jobs.
      Calls on them are total: I/O failures, and the [catch] branches that
      only log and rethrow them, are outside the model.
    - [await] sequencing is function composition on the world state. *)

From Stdlib Require Import Floats ZArith Lia Bool.
From stdpp Require Import base strings list gmap pretty sorting.

Set Warnings "-inexact-float".

(** ** JavaScript values used by the two services *)

Module Js.

Definition number := float.

(** [ToBoolean] on a number: [+0], [-0] and [NaN] are falsy. *)
Definition truthy (x : number) : bool :=
  negb (PrimFloat.is_zero x || PrimFloat.is_nan x).

(** [a || b] on numbers. *)
Definition or (a b : number) : number := if truthy a then a else b.

(** [o[k] || d] for a table lookup that may be [undefined]. *)
Definition or_default (o : option number) (d : number) : number :=
  match o with
  | Some v => or v d
  | None => d
  end.

Definition lt (x y : number) : bool := PrimFloat.ltb x y.
Definition gt (x y : number) : bool := PrimFloat.ltb y x.
Definition le (x y : number) : bool := PrimFloat.leb x y.
Definition ge (x y : number) : bool := PrimFloat.leb y x.

(** [Math.min(x, y)]: NaN is contagious and [-0] is below [+0]. *)
Definition Math_min (x y : number) : number :=
  if PrimFloat.is_nan x || PrimFloat.is_nan y then PrimFloat.nan
  else if PrimFloat.ltb x y then x
  else if PrimFloat.ltb y x then y
  else if PrimFloat.is_zero x && PrimFloat.get_sign x then x
  else y.

(** An integer that fits a double exactly (array lengths, counters,
    epoch milliseconds) as a number. *)
Definition of_Z (z : Z) : number :=
  if (z <? 0)%Z then PrimFloat.opp (PrimFloat.of_uint63 (Uint63.of_Z (- z)))
  else PrimFloat.of_uint63 (Uint63.of_Z z).

Definition of_nat (n : nat) : number := of_Z (Z.of_nat n).

(** [ToBoolean] on a string: only the empty string is falsy. *)
Definition truthy_str (s : string) : bool := negb (bool_decide (s = "")).

(** A [Date] is its time value, [getTime()]; the time value of a valid
    date is finite and the one of [Invalid Date] is NaN. *)
Record Date := mkDate { getTime : number }.

Definition isValidDate (d : Date) : bool := PrimFloat.is_finite (getTime d).

(** Template literals.  The pieces that interpolate a non-integral
    number are kept apart, since [Number::toString] is not modelled. *)
Inductive Piece :=
| Str (s : string)
| Num (n : number)
| ToFixed (digits : nat) (n : number).

Definition Text := list Piece.

(** The stable sort of [Array.prototype.sort(cmp)]: [cmp a b > 0] moves
    [b] before [a]; zero, negative and NaN results keep the order. *)
Fixpoint sort_insert {A} (cmp : A → A → number) (x : A) (l : list A) : list A :=
  match l with
  | [] => [x]
  | y :: l' => if gt (cmp x y) 0%float then y :: sort_insert cmp x l' else x :: l
  end.

Definition Array_sort {A} (cmp : A → A → number) (l : list A) : list A :=
  foldr (sort_insert cmp) [] l.

(** A [Map<string, V>]: iteration follows insertion order, and [set] on
    a present key overwrites the value where it stands. *)
Definition Map (V : Type) := list (string * V).

Fixpoint Map_get {V} (k : string) (m : Map V) : option V :=
  match m with
  | [] => None
  | (k', v) :: m' => if decide (k = k') then Some v else Map_get k m'
  end.

Fixpoint Map_set {V} (k : string) (v : V) (m : Map V) : Map V :=
  match m with
  | [] => [(k, v)]
  | (k', v') :: m' =>
      if decide (k = k') then (k, v) :: m' else (k', v') :: Map_set k v m'
  end.

Definition Map_values {V} (m : Map V) : list V := snd <$> m.

End Js.

Import Js.

(** ** Shared data types *)

(** ['low' | 'medium' | 'high' | 'critical']: severities, urgencies and
    risk levels. *)
Inductive Level := Low | Medium | High | Critical.

Inductive ActionType := Flag | Remove | Escalate | Warn | Quarantine | Notify.

Global Instance Level_eq_dec : EqDecision Level.
Proof. solve_decision. Defined.

Global Instance ActionType_eq_dec : EqDecision ActionType.
Proof. solve_decision. Defined.

Definition Level_to_string (l : Level) : string :=
  match l with
  | Low => "low"
  | Medium => "medium"
  | High => "high"
  | Critical => "critical"
  end.

Definition ActionType_to_string (t : ActionType) : string :=
  match t with
  | Flag => "flag"
  | Remove => "remove"
  | Escalate => "escalate"
  | Warn => "warn"
  | Quarantine => "quarantine"
  | Notify => "notify"
  end.

(** [DetectionResult] of ContentDetectionService.ts, without its optional
    [metadata], which neither service reads. *)
Record DetectionResult := mkDetectionResult {
  harmfulnessScore : number;
  categories : list string;
  confidence : number;
  reasoning : string;
  flagged : bool;
}.

(** Modelled from the spec: the [Content] document of [models/Content],
    which is not under src/.  Section 6 of the spec gives its shape; only
    the fields the two services read or write are kept.  The moderation
    state lives under [metadata], a free-form object written with [$set]. *)
Record Engagement := mkEngagement {
  likes : number;
  shares : number;
  comments : number;
  views : option number;
}.

Inductive MetaValue :=
| MBool (b : bool)
| MString (s : string)
| MLevel (l : Level)
| MDate (d : Date)
| MFlags (kind reason : string) (severity : Level) (timestamp : Date).

Record IContent := mkContent {
  platform : string;
  engagement : Engagement;
  analysisResults_flagged : bool;
  metadata : gmap string MetaValue;
}.

(** What reaches the [logger]: the level and the message; the optional
    structured argument of a call is not kept. *)
Inductive LogLevel := LogInfo | LogWarn | LogError.

Record LogLine := mkLog { level : LogLevel; message : Text }.

(** ** AutomatedResponseService.ts *)

Module AutomatedResponseService.

Local Open Scope float_scope.

(** The optional [metadata] of an action is read nowhere in the service
    and is left out. *)
Record ResponseAction := mkAction {
  type : ActionType;
  severity : Level;
  automated : bool;
  reason : string;
}.

Record ScoreRange := mkRange {
  min : option number;
  max : option number;
}.

Record Conditions := mkConditions {
  cond_harmfulnessScore : option ScoreRange;
  cond_categories : option (list string);
  cond_platforms : option (list string);
  cond_confidence : option (option number);
  cond_viralityIndicators : option bool;
}.

Record EscalationRule := mkRule {
  id : string;
  name : string;
  conditions : Conditions;
  actions : list ResponseAction;
  priority : number;
  enabled : bool;
}.

Record ProcessingJob := mkProcessingJob {
  contentId : string;
  detectionResult : DetectionResult;
  urgency : Level;
}.

(** *** The pure decision functions *)

Definition highRiskCategories : list string :=
  ["self_harm"; "violence"; "dangerous_challenge"; "extremism"].

Definition includes (l : list string) (s : string) : bool :=
  bool_decide (s ∈ l).

Definition determineUrgency (detectionResult : DetectionResult) : Level :=
  let score := harmfulnessScore detectionResult in
  let hasHighRiskCategories :=
    existsb (fun cat => includes highRiskCategories cat)
            (categories detectionResult) in
  if ge score 0.95 || hasHighRiskCategories then Critical
  else if ge score 0.85 then High
  else if ge score 0.7 then Medium
  else Low.

(** [priorities[urgency] || 4] *)
Definition getJobPriority (urgency : Level) : number :=
  let priorities (u : Level) : option number :=
    Some match u with
         | Critical => 1 | High => 2 | Medium => 3 | Low => 4
         end in
  or_default (priorities urgency) 4.

Definition typePriority (t : ActionType) : option number :=
  Some match t with
       | Remove => 5
       | Quarantine => 4
       | Escalate => 3
       | Flag => 2
       | Warn => 1
       | Notify => 1
       end.

Definition severityPriority (s : Level) : option number :=
  Some match s with
       | Critical => 4 | High => 3 | Medium => 2 | Low => 1
       end.

Definition getActionPriority (action : ResponseAction) : number :=
  or_default (typePriority (type action)) 1
  * or_default (severityPriority (severity action)) 1.

(** The value of [a || b || (views && views > 10000)]: a boolean, or
    the falsy [views] itself ([undefined], [0], [NaN]). *)
Inductive Viral :=
| VBool (b : bool)
| VUndefined
| VNumber (n : number).

Definition Viral_truthy (v : Viral) : bool :=
  match v with
  | VBool b => b
  | VUndefined => false
  | VNumber n => truthy n
  end.

Definition checkViralityIndicators (content : IContent) : Viral :=
  let e := engagement content in
  let totalEngagement := likes e + shares e + comments e in
  let viralThreshold := 1000 in
  if gt totalEngagement viralThreshold then VBool true
  else if gt (shares e) 100 then VBool true
  else match views e with
       | None => VUndefined
       | Some v => if truthy v then VBool (gt v 10000) else VNumber v
       end.

(** The callback of the [filter] in [findApplicableRules]. *)
Definition ruleApplies (detectionResult : DetectionResult) (content : IContent)
    (rule : EscalationRule) : bool :=
  if negb (enabled rule) then false else
  let conditions := conditions rule in
  let score := harmfulnessScore detectionResult in
  let outOfRange :=
    match cond_harmfulnessScore conditions with
    | Some range =>
        match min range with
        | Some m => truthy m && lt score m
        | None => false
        end
        || match max range with
           | Some m => truthy m && gt score m
           | None => false
           end
    | None => false
    end in
  if outOfRange then false else
  let underConfident :=
    match cond_confidence conditions with
    | Some (Some m) => truthy m && lt (confidence detectionResult) m
    | _ => false
    end in
  if underConfident then false else
  let categoryMiss :=
    match cond_categories conditions with
    | Some cats =>
        bool_decide (0 < length cats)%nat
        && negb (existsb (fun cat => includes (categories detectionResult) cat) cats)
    | None => false
    end in
  if categoryMiss then false else
  let platformMiss :=
    match cond_platforms conditions with
    | Some ps =>
        bool_decide (0 < length ps)%nat && negb (includes ps (platform content))
    | None => false
    end in
  if platformMiss then false else
  let notViral :=
    match cond_viralityIndicators conditions with
    | Some true => negb (Viral_truthy (checkViralityIndicators content))
    | _ => false
    end in
  if notViral then false else true.

Definition findApplicableRules (escalationRules : list EscalationRule)
    (detectionResult : DetectionResult) (content : IContent) : list EscalationRule :=
  Array_sort (fun a b => priority b - priority a)
             (filter (fun rule => ruleApplies detectionResult content rule = true)
                     escalationRules).

Definition actionKey (action : ResponseAction) : string :=
  ActionType_to_string (type action) +:+ "_" +:+ Level_to_string (severity action).

(** The body of the inner loop of [consolidateActions]. *)
Definition consolidateStep (actionMap : Map ResponseAction) (action : ResponseAction)
    : Map ResponseAction :=
  let key := actionKey action in
  match Map_get key actionMap with
  | None => Map_set key action actionMap
  | Some existing =>
      if gt (getActionPriority action) (getActionPriority existing)
      then Map_set key action actionMap
      else actionMap
  end.

Definition consolidateActions (rules : list EscalationRule) : list ResponseAction :=
  let actionMap :=
    foldl (fun m rule => foldl consolidateStep m (actions rule)) [] rules in
  Array_sort (fun a b => getActionPriority b - getActionPriority a)
             (Map_values actionMap).

(** *** The world the executor acts on *)

(** A job handed to [queue.add(name, data, opts)]. *)
Record QueueJob (D : Type) := mkJob {
  jobName : string;
  jobData : D;
  jobPriority : option number;
  jobDelay : option number;
}.
Arguments mkJob {D} _ _ _ _.
Arguments jobName {D} _.
Arguments jobData {D} _.
Arguments jobPriority {D} _.
Arguments jobDelay {D} _.

Record EscalationJob := mkEscalationJob {
  esc_contentId : string;
  esc_action : ResponseAction;
  esc_detectionResult : DetectionResult;
}.

(** What [JSON.stringify] writes to the Redis lists, before rendering. *)
Inductive RedisEntry :=
| EscalationData (contentId : string) (action : ResponseAction)
    (detectionResult : DetectionResult) (createdAt : Date) (priority : Level)
| ResponseLogEntry (contentId : string)
    (actions : list (ActionType * Level * string))
    (harmfulnessScore : number) (categories : list string) (confidence : number)
    (timestamp : Date).

Record World := mkWorld {
  contents : gmap string IContent;
  responseQueue : list (QueueJob ProcessingJob);
  escalationQueue : list (QueueJob EscalationJob);
  redisLists : gmap string (list RedisEntry);
  logs : list LogLine;
  clock : Z;
}.

(** The fields of [this] that the methods read. *)
Record Service := mkService {
  autoActionThreshold : number;
  escalationRules : list EscalationRule;
}.

Definition new_Date (w : World) : Date := mkDate (of_Z (clock w)).

Definition logger (l : LogLevel) (msg : Text) (w : World) : World :=
  mkWorld (contents w) (responseQueue w) (escalationQueue w) (redisLists w)
          (logs w ++ [mkLog l msg]) (clock w).

Definition responseQueue_add (job : QueueJob ProcessingJob) (w : World) : World :=
  mkWorld (contents w) (responseQueue w ++ [job]) (escalationQueue w)
          (redisLists w) (logs w) (clock w).

Definition escalationQueue_add (job : QueueJob EscalationJob) (w : World) : World :=
  mkWorld (contents w) (responseQueue w) (escalationQueue w ++ [job])
          (redisLists w) (logs w) (clock w).

Definition redis_lPush (key : string) (entry : RedisEntry) (w : World) : World :=
  mkWorld (contents w) (responseQueue w) (escalationQueue w)
          (<[key := entry :: default [] (redisLists w !! key)]> (redisLists w))
          (logs w) (clock w).

(** [Content.findByIdAndUpdate(id, { $set })]: a missing id updates
    nothing (there is no upsert). *)
Definition findByIdAndUpdate (contentId : string) (update : IContent → IContent)
    (w : World) : World :=
  mkWorld (alter update contentId (contents w)) (responseQueue w)
          (escalationQueue w) (redisLists w) (logs w) (clock w).

Definition set_metadata (key : string) (v : MetaValue) (c : IContent) : IContent :=
  mkContent (platform c) (engagement c) (analysisResults_flagged c)
            (<[key := v]> (metadata c)).

Definition set_analysisResults_flagged (b : bool) (c : IContent) : IContent :=
  mkContent (platform c) (engagement c) b (metadata c).

(** *** The response executor *)

Definition flagContent (contentId : string) (action : ResponseAction)
    (detectionResult : DetectionResult) (w : World) : World :=
  let w := findByIdAndUpdate contentId (fun c =>
             set_metadata "flags"
               (MFlags "automated" (reason action) (severity action) (new_Date w))
               (set_analysisResults_flagged true c)) w in
  logger LogInfo
    [Str ("Content flagged: " +:+ contentId +:+ " ("
          +:+ Level_to_string (severity action) +:+ ")")] w.

Definition escalateToHuman (contentId : string) (action : ResponseAction)
    (detectionResult : DetectionResult) (w : World) : World :=
  let w := escalationQueue_add
             (mkJob "escalate-content"
                    (mkEscalationJob contentId action detectionResult)
                    (Some (getActionPriority action)) None) w in
  let w := findByIdAndUpdate contentId (fun c =>
             set_metadata "reviewPriority" (MLevel (severity action))
               (set_metadata "escalatedAt" (MDate (new_Date w))
                  (set_metadata "escalationReason" (MString (reason action))
                     (set_metadata "escalated" (MBool true) c)))) w in
  logger LogInfo
    [Str ("Content escalated for human review: " +:+ contentId +:+ " ("
          +:+ Level_to_string (severity action) +:+ ")")] w.

Definition removeContent (this : Service) (contentId : string)
    (action : ResponseAction) (detectionResult : DetectionResult) (w : World)
    : World :=
  if lt (harmfulnessScore detectionResult) (autoActionThreshold this) then
    let w := logger LogWarn
               [Str ("Content " +:+ contentId +:+ " harmfulness score ");
                Num (harmfulnessScore detectionResult);
                Str " below auto-action threshold ";
                Num (autoActionThreshold this);
                Str ", escalating instead"] w in
    escalateToHuman contentId action detectionResult w
  else
    let w := findByIdAndUpdate contentId (fun c =>
               set_metadata "removedBy" (MString "automated_system")
                 (set_metadata "removedAt" (MDate (new_Date w))
                    (set_metadata "removeReason" (MString (reason action))
                       (set_metadata "removed" (MBool true) c)))) w in
    logger LogWarn
      [Str ("Content removed: " +:+ contentId +:+ " (" +:+ reason action +:+ ")")] w.

Definition warnUser (contentId : string) (action : ResponseAction)
    (detectionResult : DetectionResult) (w : World) : World :=
  match contents w !! contentId with
  | None => w
  | Some _ =>
      let w := findByIdAndUpdate contentId (fun c =>
                 set_metadata "warnedAt" (MDate (new_Date w))
                   (set_metadata "warningReason" (MString (reason action))
                      (set_metadata "userWarned" (MBool true) c))) w in
      logger LogInfo
        [Str ("User warned for content: " +:+ contentId +:+ " ("
              +:+ reason action +:+ ")")] w
  end.

Definition quarantineContent (contentId : string) (action : ResponseAction)
    (detectionResult : DetectionResult) (w : World) : World :=
  let w := findByIdAndUpdate contentId (fun c =>
             set_metadata "requiresReview" (MBool true)
               (set_metadata "quarantinedAt" (MDate (new_Date w))
                  (set_metadata "quarantineReason" (MString (reason action))
                     (set_metadata "quarantined" (MBool true) c)))) w in
  logger LogInfo
    [Str ("Content quarantined: " +:+ contentId +:+ " (" +:+ reason action +:+ ")")] w.

(** The notification object is only handed to the logger. *)
Definition notifyStakeholders (contentId : string) (action : ResponseAction)
    (detectionResult : DetectionResult) (w : World) : World :=
  logger LogInfo
    [Str ("Stakeholder notification sent for content: " +:+ contentId)] w.

Definition executeAction (this : Service) (contentId : string)
    (action : ResponseAction) (detectionResult : DetectionResult) (w : World)
    : World :=
  match type action with
  | Flag => flagContent contentId action detectionResult w
  | Remove => removeContent this contentId action detectionResult w
  | Escalate => escalateToHuman contentId action detectionResult w
  | Warn => warnUser contentId action detectionResult w
  | Quarantine => quarantineContent contentId action detectionResult w
  | Notify => notifyStakeholders contentId action detectionResult w
  end.

Definition handleEscalation (contentId : string) (action : ResponseAction)
    (detectionResult : DetectionResult) (w : World) : World :=
  let escalationData :=
    EscalationData contentId action detectionResult (new_Date w) (severity action) in
  let w := redis_lPush ("escalation:" +:+ Level_to_string (severity action))
                       escalationData w in
  logger LogInfo
    [Str ("Escalation processed: " +:+ contentId +:+ " added to "
          +:+ Level_to_string (severity action) +:+ " queue")] w.

Definition processEscalation (job : QueueJob EscalationJob) (w : World) : World :=
  let d := jobData job in
  handleEscalation (esc_contentId d) (esc_action d) (esc_detectionResult d) w.

Definition logResponseActions (contentId : string) (actions : list ResponseAction)
    (detectionResult : DetectionResult) (w : World) : World :=
  let logEntry :=
    ResponseLogEntry contentId
      ((fun a => (type a, severity a, reason a)) <$> actions)
      (harmfulnessScore detectionResult) (categories detectionResult)
      (confidence detectionResult) (new_Date w) in
  let w := redis_lPush "response_log" logEntry w in
  logger LogInfo [Str ("Response actions logged for content: " +:+ contentId)] w.

Definition processContent (contentId : string) (detectionResult : DetectionResult)
    (w : World) : World :=
  let urgency := determineUrgency detectionResult in
  let jobData := mkProcessingJob contentId detectionResult urgency in
  let priority := getJobPriority urgency in
  let w := responseQueue_add
             (mkJob "handle-content" jobData (Some priority)
                    (Some (if decide (urgency = Critical) then 0 else 1000))) w in
  logger LogInfo
    [Str ("Content response queued: " +:+ contentId +:+ " ("
          +:+ Level_to_string urgency +:+ " urgency)")] w.

(** A job processor either returns or throws. *)
Inductive Outcome := Returned | Thrown (error : string).

Definition processContentResponse (this : Service) (job : QueueJob ProcessingJob)
    (w : World) : Outcome * World :=
  let contentId := contentId (jobData job) in
  let detectionResult := detectionResult (jobData job) in
  match contents w !! contentId with
  | None =>
      let error := "Content not found: " +:+ contentId in
      (Thrown error,
       logger LogError
         [Str ("Failed to process content response for " +:+ contentId +:+ ":");
          Str error] w)
  | Some content =>
      let applicableRules :=
        findApplicableRules (escalationRules this) detectionResult content in
      let actions := consolidateActions applicableRules in
      let w := foldl (fun w action =>
                        executeAction this contentId action detectionResult w)
                     w actions in
      (Returned, logResponseActions contentId actions detectionResult w)
  end.

(** *** The rule set the service starts with *)

Definition getDefaultEscalationRules : list EscalationRule :=
  [ mkRule "critical_self_harm" "Critical Self-Harm Content"
      (mkConditions (Some (mkRange (Some 0.8) None)) (Some ["self_harm"])
                    None None None)
      [ mkAction Remove Critical true "Self-harm content detected";
        mkAction Notify Critical true "Mental health crisis alert" ]
      100 true;
    mkRule "high_violence_viral" "High Violence with Viral Potential"
      (mkConditions (Some (mkRange (Some 0.75) None)) (Some ["violence"])
                    None None (Some true))
      [ mkAction Quarantine High true "Violent content with viral potential";
        mkAction Escalate High true
          "Human review required for viral violent content" ]
      90 true;
    mkRule "moderate_hate_speech" "Moderate Hate Speech"
      (mkConditions (Some (mkRange (Some 0.6) (Some 0.85))) (Some ["hate_speech"])
                    None None None)
      [ mkAction Flag Medium true "Hate speech detected";
        mkAction Warn Medium true "Community guidelines violation" ]
      70 true;
    mkRule "dangerous_challenge_tiktok" "Dangerous Challenge on TikTok"
      (mkConditions (Some (mkRange (Some 0.7) None)) (Some ["dangerous_challenge"])
                    (Some ["tiktok"]) None None)
      [ mkAction Remove High true "Dangerous challenge removed for safety";
        mkAction Notify High true "Dangerous trend alert" ]
      85 true;
    mkRule "low_confidence_high_harm" "Low Confidence High Harm Score"
      (mkConditions (Some (mkRange (Some 0.8) None)) None None
                    (Some (Some 0.0)) None)
      [ mkAction Escalate Medium true
          "Low confidence high harm - needs human review" ]
      60 true ].

(** The service as its constructor leaves it when [AUTO_ACTION_THRESHOLD]
    is not set. *)
Definition defaultService : Service := mkService 0.95 getDefaultEscalationRules.

End AutomatedResponseService.

(** ** TrendAnalysisService.ts *)

Module TrendAnalysisService.

Local Open Scope float_scope.

Record TrendData := mkTrend {
  id : string;
  hashtags : list string;
  keywords : list string;
  platforms : list string;
  harmfulnessScore : number;
  viralityScore : number;
  growthRate : number;
  firstDetected : Date;
  lastUpdated : Date;
  contentCount : number;
  averageEngagement : number;
  categories : list string;
  riskLevel : Level;
}.

Record EarlyWarning := mkWarning {
  warning_id : string;
  title : string;
  description : Text;
  severity : Level;
  trendData : TrendData;
  recommendedActions : list string;
  createdAt : Date;
}.

(** The argument of [createTrendData], a [Partial<TrendData>]: the
    fields it reads.  The two dates carry a non-null assertion in the
    source and are required here. *)
Record PartialTrendData := mkPartial {
  p_id : option string;
  p_hashtags : option (list string);
  p_keywords : option (list string);
  p_platforms : option (list string);
  p_harmfulnessScore : option number;
  p_contentCount : option number;
  p_averageEngagement : option number;
  p_categories : option (list string);
  p_firstDetected : Date;
  p_lastUpdated : Date;
}.

(** The fields of [this]; the constructor fixes [viralityThreshold]. *)
Record Service := mkService {
  trendThreshold : number;
  viralityThreshold : number;
}.

Definition new_Service (trendDetectionThreshold : number) : Service :=
  mkService trendDetectionThreshold 1000.

(** *** The scorer *)

Definition calculateViralityScore (this : Service)
    (contentCount averageEngagement : number) : number :=
  let contentScore := Math_min (contentCount / 100) 1.0 in
  let engagementScore := Math_min (averageEngagement / viralityThreshold this) 1.0 in
  (contentScore + engagementScore) / 2.

(** The local [timeSpanHours] of [calculateGrowthRate]. *)
Definition timeSpanHours (firstDetected lastUpdated : Date) : number :=
  (getTime lastUpdated - getTime firstDetected) / (1000 * 60 * 60).

Definition calculateGrowthRate (firstDetected lastUpdated : Date)
    (contentCount : number) : number :=
  let timeSpanHours := timeSpanHours firstDetected lastUpdated in
  if le timeSpanHours 0 then 0
  else contentCount / timeSpanHours.

(** The local [riskScore] of [calculateRiskLevel]. *)
Definition riskScore (harmfulnessScore viralityScore platformCount : number)
    : number :=
  (harmfulnessScore * 0.5) + (viralityScore * 0.3)
  + (Math_min (platformCount / 5) 1 * 0.2).

Definition calculateRiskLevel (harmfulnessScore viralityScore platformCount : number)
    : Level :=
  let riskScore := riskScore harmfulnessScore viralityScore platformCount in
  if ge riskScore 0.85 then Critical
  else if ge riskScore 0.7 then High
  else if ge riskScore 0.5 then Medium
  else Low.

(** [x || 0] for an optional number. *)
Definition or0 (x : option number) : number := or_default x 0.

Definition createTrendData (this : Service) (now : Z) (data : PartialTrendData)
    : TrendData :=
  let viralityScore :=
    calculateViralityScore this (or0 (p_contentCount data))
                           (or0 (p_averageEngagement data)) in
  let growthRate :=
    calculateGrowthRate (p_firstDetected data) (p_lastUpdated data)
                        (or0 (p_contentCount data)) in
  let riskLevel :=
    calculateRiskLevel (or0 (p_harmfulnessScore data)) viralityScore
      (or_default ((fun l => of_nat (length l)) <$> p_platforms data) 1) in
  mkTrend
    (match p_id data with
     | Some i => if truthy_str i then i else "trend_" +:+ pretty now
     | None => "trend_" +:+ pretty now
     end)
    (default [] (p_hashtags data))
    (default [] (p_keywords data))
    (default [] (p_platforms data))
    (or0 (p_harmfulnessScore data))
    viralityScore
    growthRate
    (p_firstDetected data)
    (p_lastUpdated data)
    (or0 (p_contentCount data))
    (or0 (p_averageEngagement data))
    (default [] (p_categories data))
    riskLevel.

(** *** The three passes of the aggregator

    [Content.aggregate(pipeline)] is the signal store's answer; the rows
    it returns are the input of each pass.  A pass whose query fails logs
    the error and contributes no trend, which is the pass on no rows. *)

Record GroupRow := mkGroupRow {
  row_id : string;
  row_count : number;
  row_platforms : list string;
  row_avgHarmfulnessScore : number;
  row_totalEngagement : number;
  row_categories : list (list string);
  row_firstSeen : Date;
  row_lastSeen : Date;
}.

Record CrossRow := mkCrossRow {
  cross_categories : option (list string);
  cross_hashtags : option (list string);
  cross_platforms : list string;
  cross_count : number;
  cross_avgHarmfulnessScore : number;
  cross_totalEngagement : number;
  cross_firstSeen : Date;
  cross_lastSeen : Date;
}.

Definition detectTrendingHashtags (this : Service) (now : Z)
    (results : list GroupRow) : list TrendData :=
  (fun result =>
     createTrendData this now
       (mkPartial (Some ("hashtag_" +:+ row_id result))
                  (Some [row_id result])
                  (Some [])
                  (Some (row_platforms result))
                  (Some (row_avgHarmfulnessScore result))
                  (Some (row_count result))
                  (Some (row_totalEngagement result / row_count result))
                  (Some (concat (row_categories result)))
                  (row_firstSeen result)
                  (row_lastSeen result))) <$> results.

Definition detectTrendingKeywords (this : Service) (now : Z)
    (results : list GroupRow) : list TrendData :=
  (fun result =>
     createTrendData this now
       (mkPartial (Some ("keyword_" +:+ row_id result))
                  (Some [])
                  (Some [row_id result])
                  (Some (row_platforms result))
                  (Some (row_avgHarmfulnessScore result))
                  (Some (row_count result))
                  (Some (row_totalEngagement result / row_count result))
                  (Some (concat (row_categories result)))
                  (row_firstSeen result)
                  (row_lastSeen result))) <$> results.

Definition detectCrossPlatformTrends (this : Service) (now : Z)
    (results : list CrossRow) : list TrendData :=
  imap (fun (index : nat) result =>
     createTrendData this now
       (mkPartial (Some ("crossplatform_" +:+ pretty index))
                  (Some (default [] (cross_hashtags result)))
                  (Some [])
                  (Some (cross_platforms result))
                  (Some (cross_avgHarmfulnessScore result))
                  (Some (cross_count result))
                  (Some (cross_totalEngagement result / cross_count result))
                  (Some (default [] (cross_categories result)))
                  (cross_firstSeen result)
                  (cross_lastSeen result))) results.

(** *** Deduplication *)

(** [Array.prototype.sort()] without a comparator, on strings: ascending
    by code unit.  It sorts the array in place. *)
Fixpoint insert_string (x : string) (l : list string) : list string :=
  match l with
  | [] => [x]
  | y :: l' => if String.ltb y x then y :: insert_string x l' else x :: l
  end.

Definition sort_strings (l : list string) : list string :=
  foldr insert_string [] l.

Definition join (sep : string) (l : list string) : string := String.concat sep l.

(** [getTrendKey] returns the key and leaves the three arrays of the
    trend sorted. *)
Definition getTrendKey (trend : TrendData) : string * TrendData :=
  let hashtags := sort_strings (hashtags trend) in
  let keywords := sort_strings (keywords trend) in
  let categories := sort_strings (categories trend) in
  (join "," hashtags +:+ "|" +:+ join "," keywords +:+ "|" +:+ join "," categories,
   mkTrend (id trend) hashtags keywords (platforms trend)
           (harmfulnessScore trend) (viralityScore trend) (growthRate trend)
           (firstDetected trend) (lastUpdated trend) (contentCount trend)
           (averageEngagement trend) categories (riskLevel trend)).

Definition consolidateTrends (trends : list TrendData) : list TrendData :=
  let loop :=
    foldl (fun (acc : list TrendData * gset string) trend =>
             let '(consolidated, seen) := acc in
             let '(key, trend) := getTrendKey trend in
             if bool_decide (key ∈ seen) then (consolidated, seen)
             else (consolidated ++ [trend], {[key]} ∪ seen))
          ([], ∅) trends in
  Array_sort (fun a b =>
                let aScore := harmfulnessScore a * viralityScore a in
                let bScore := harmfulnessScore b * viralityScore b in
                bScore - aScore)
             (fst loop).

(** *** The ledger and the warning emitter *)

Inductive Stored :=
| StoredTrend (trend : TrendData)
| StoredWarning (warning : EarlyWarning).

(** Redis: string keys with a time to live in seconds, lists, and
    sorted sets (member to score). *)
Record Redis := mkRedis {
  strings : gmap string (Stored * Z);
  lists : gmap string (list string);
  zsets : gmap string (gmap string number);
}.

Record World := mkWorld {
  redis : Redis;
  logs : list LogLine;
  clock : Z;
}.

Definition new_Date (w : World) : Date := mkDate (of_Z (clock w)).

Definition logger (l : LogLevel) (msg : Text) (w : World) : World :=
  mkWorld (redis w) (logs w ++ [mkLog l msg]) (clock w).

Definition setEx (key : string) (seconds : Z) (value : Stored) (w : World) : World :=
  let r := redis w in
  mkWorld (mkRedis (<[key := (value, seconds)]> (strings r)) (lists r) (zsets r))
          (logs w) (clock w).

Definition lPush (key : string) (element : string) (w : World) : World :=
  let r := redis w in
  mkWorld (mkRedis (strings r)
                   (<[key := element :: default [] (lists r !! key)]> (lists r))
                   (zsets r))
          (logs w) (clock w).

Definition zAdd (key : string) (score : number) (value : string) (w : World) : World :=
  let r := redis w in
  mkWorld (mkRedis (strings r) (lists r)
                   (<[key := <[value := score]> (default ∅ (zsets r !! key))]>
                      (zsets r)))
          (logs w) (clock w).

Definition storeTrendData (trend : TrendData) (w : World) : World :=
  let key := "trend:" +:+ id trend in
  let w := setEx key (24 * 60 * 60) (StoredTrend trend) w in
  let w := zAdd "trending:active" (harmfulnessScore trend * viralityScore trend)
                (id trend) w in
  logger LogInfo
    [Str ("Stored trend data: " +:+ id trend +:+ " ("
          +:+ Level_to_string (riskLevel trend) +:+ " risk)")] w.

Definition toUpperCase (l : Level) : string :=
  match l with
  | Low => "LOW"
  | Medium => "MEDIUM"
  | High => "HIGH"
  | Critical => "CRITICAL"
  end.

Definition dquote : string := String (Ascii.ascii_of_nat 34) EmptyString.

(** [a[0] || rest] on strings. *)
Definition first_or (l : list string) (rest : string) : string :=
  match l with
  | s :: _ => if truthy_str s then s else rest
  | [] => rest
  end.

Definition generateWarningTitle (trend : TrendData) : string :=
  let type := if bool_decide (0 < length (hashtags trend))%nat
              then "hashtag" else "keyword" in
  let identifier := first_or (hashtags trend) (first_or (keywords trend) "content") in
  toUpperCase (riskLevel trend) +:+ " Risk: Trending " +:+ type +:+ " "
  +:+ dquote +:+ identifier +:+ dquote.

Definition generateWarningDescription (trend : TrendData) : Text :=
  let platforms := join ", " (platforms trend) in
  let categories := join ", " (take 3 (categories trend)) in
  [Str ("Detected harmful trending content across " +:+ platforms
        +:+ ". Categories: " +:+ categories +:+ ". Growth rate: ");
   ToFixed 1 (growthRate trend);
   Str " posts/hour."].

Definition includes (l : list string) (s : string) : bool := bool_decide (s ∈ l).

Definition generateRecommendedActions (trend : TrendData) : list string :=
  let actions := [] in
  let actions :=
    if decide (riskLevel trend = Critical)
    then actions ++ ["Immediate human review required";
                     "Consider emergency content removal";
                     "Notify platform partners"]
    else actions in
  let actions :=
    if decide (riskLevel trend = High)
    then actions ++ ["Escalate to senior moderators";
                     "Increase monitoring frequency";
                     "Prepare response guidelines"]
    else actions in
  let actions :=
    if bool_decide (2 < length (platforms trend))%nat
    then actions ++ ["Coordinate cross-platform response"]
    else actions in
  let actions :=
    if includes (categories trend) "self_harm"
    then actions ++ ["Alert mental health support teams"]
    else actions in
  if includes (categories trend) "dangerous_challenge"
  then actions ++ ["Issue safety warnings"]
  else actions.

Definition generateEarlyWarning (trend : TrendData) (w : World) : World :=
  let warning :=
    mkWarning ("warning_" +:+ id trend +:+ "_" +:+ pretty (clock w))
              (generateWarningTitle trend)
              (generateWarningDescription trend)
              (riskLevel trend)
              trend
              (generateRecommendedActions trend)
              (new_Date w) in
  let key := "warning:" +:+ warning_id warning in
  let w := setEx key (7 * 24 * 60 * 60) (StoredWarning warning) w in
  let w := lPush "warnings:active" (warning_id warning) w in
  logger LogWarn [Str ("Early warning generated: " +:+ title warning)] w.

(** The body of the loop of [analyzeCurrentTrends] over the consolidated
    trends. *)
Definition storeAndWarn (w : World) (trend : TrendData) : World :=
  let w := storeTrendData trend w in
  if bool_decide (riskLevel trend = High ∨ riskLevel trend = Critical)
  then generateEarlyWarning trend w
  else w.

(** One aggregation cycle, from the rows of the three queries on. *)
Definition analyzeCurrentTrends (this : Service)
    (hashtagResults keywordResults : list GroupRow) (crossResults : list CrossRow)
    (w : World) : list TrendData * World :=
  let trendingHashtags := detectTrendingHashtags this (clock w) hashtagResults in
  let trendingKeywords := detectTrendingKeywords this (clock w) keywordResults in
  let crossPlatformTrends := detectCrossPlatformTrends this (clock w) crossResults in
  let allTrends := trendingHashtags ++ trendingKeywords ++ crossPlatformTrends in
  let consolidatedTrends := consolidateTrends allTrends in
  let w := foldl storeAndWarn w consolidatedTrends in
  (consolidatedTrends, w).

End TrendAnalysisService.

(** * Specification vocabulary

    The notions the properties below are stated with, and the concrete
    worlds they are tried on. *)

(** A list in descending order of an integer rank. *)
Definition descending {A} (rank : A → Z) (l : list A) : Prop :=
  StronglySorted (fun a b => (rank b ≤ rank a)%Z) l.

Module ResponseSpec.

Import AutomatedResponseService.

Local Open Scope float_scope.

(** The removal marker of every document of the collection. *)
Definition removedMarks (w : World) : gmap string (option MetaValue) :=
  (fun c => metadata c !! "removed") <$> contents w.

(** The state of a document after [escalateToHuman]. *)
Definition escalated (action : ResponseAction) (at_ : Date) (c : IContent) : IContent :=
  set_metadata "reviewPriority" (MLevel (severity action))
    (set_metadata "escalatedAt" (MDate at_)
       (set_metadata "escalationReason" (MString (reason action))
          (set_metadata "escalated" (MBool true) c))).

Definition overrideWarning (this : Service) (contentId : string)
    (d : DetectionResult) : LogLine :=
  mkLog LogWarn
    [Str ("Content " +:+ contentId +:+ " harmfulness score ");
     Num (harmfulnessScore d);
     Str " below auto-action threshold ";
     Num (autoActionThreshold this);
     Str ", escalating instead"].

(** The (type, severity) pair of an action, which its map key renders. *)
Definition pairOf (a : ResponseAction) : ActionType * Level := (type a, severity a).

(** The weights of the derived action priority, as integers. *)
Definition typeWeight (t : ActionType) : Z :=
  match t with
  | Remove => 5
  | Quarantine => 4
  | Escalate => 3
  | Flag => 2
  | Warn => 1
  | Notify => 1
  end.

Definition severityWeight (s : Level) : Z :=
  match s with
  | Critical => 4
  | High => 3
  | Medium => 2
  | Low => 1
  end.

Definition derivedPriority (a : ResponseAction) : Z :=
  typeWeight (type a) * severityWeight (severity a).

(** The first occurrence of every key of [l] that is not in [seen], in
    the order of [l]. *)
Fixpoint firstOccurrences (seen : list string) (l : list ResponseAction)
    : list ResponseAction :=
  match l with
  | [] => []
  | a :: l' =>
      if bool_decide (actionKey a ∈ seen) then firstOccurrences seen l'
      else a :: firstOccurrences (seen ++ [actionKey a]) l'
  end.

Definition keyed (a : ResponseAction) : string * ResponseAction := (actionKey a, a).

Definition wellKeyed (m : Map ResponseAction) : Prop :=
  ∀ k v, (k, v) ∈ m → k = actionKey v.

Definition contributes (r : EscalationRule) (p : ActionType * Level) : Prop :=
  ∃ a, a ∈ actions r ∧ pairOf a = p.

Definition byDescendingPriority (rules : list EscalationRule) : Prop :=
  StronglySorted (fun r1 r2 => le (priority r2) (priority r1) = true) rules.

(** The types of the actions waiting on the escalation queue. *)
Definition escalationQueue_types (w : World) : list ActionType :=
  (fun job => type (esc_action (jobData job))) <$> escalationQueue w.

Definition singletonRule (template : EscalationRule) (a : ResponseAction)
    : EscalationRule :=
  mkRule (id template) (name template) (conditions template) [a]
         (priority template) (enabled template).

(** The selection the rule-matching step is specified to make: each
    bound that is present must hold, and an absent one holds vacuously.
    A bound on a number is present when the field is, zero included; an
    allow-list bounds a rule when it names at least one entry. *)
Definition conditionsHold (d : DetectionResult) (content : IContent)
    (c : Conditions) : bool :=
  match cond_harmfulnessScore c with
  | Some range =>
      match min range with
      | Some m => ge (harmfulnessScore d) m
      | None => true
      end
      && match max range with
         | Some m => le (harmfulnessScore d) m
         | None => true
         end
  | None => true
  end
  && match cond_confidence c with
     | Some (Some m) => ge (confidence d) m
     | _ => true
     end
  && match cond_categories c with
     | Some (cat :: cats) =>
         existsb (fun found => includes (cat :: cats) found) (categories d)
     | _ => true
     end
  && match cond_platforms c with
     | Some (p :: ps) => includes (p :: ps) (platform content)
     | _ => true
     end
  && match cond_viralityIndicators c with
     | Some true => Viral_truthy (checkViralityIndicators content)
     | _ => true
     end.

Definition selectedBySpec (d : DetectionResult) (content : IContent)
    (rule : EscalationRule) : bool :=
  enabled rule && conditionsHold d content (conditions rule).

(** Bounds on which the filter and the specified selection cannot
    differ: none of them is zero or NaN. *)
Definition plainBounds (c : Conditions) : Prop :=
  (∀ range m, cond_harmfulnessScore c = Some range → min range = Some m →
              truthy m = true)
  ∧ (∀ range m, cond_harmfulnessScore c = Some range → max range = Some m →
                truthy m = true)
  ∧ (∀ m, cond_confidence c = Some (Some m) → truthy m = true).

End ResponseSpec.

Module ResponseExamples.

Import AutomatedResponseService.

Local Open Scope float_scope.

Definition c1_service : Service := defaultService.

Definition c1_action : ResponseAction :=
  mkAction Remove Critical true "Self-harm content detected".

Definition c1_detection : DetectionResult :=
  mkDetectionResult 0.8 ["self_harm"] 0.9 "" true.

Definition c1_world : World :=
  mkWorld {["c1" := mkContent "tiktok" (mkEngagement 10 2 3 None) true ∅]}
          [] [] ∅ [] 1700000000000.

Definition c4_rules : list EscalationRule :=
  findApplicableRules getDefaultEscalationRules
    (mkDetectionResult 0.97 ["self_harm"] 0.9 "" true)
    (mkContent "tiktok" (mkEngagement 10 2 3 None) true ∅).

Definition c5_rule : EscalationRule :=
  mkRule "benign_only" "Score must be zero"
         (mkConditions (Some (mkRange None (Some 0))) None None None None)
         [mkAction Flag Low true "No harm detected"] 10 true.

Definition c5_detection : DetectionResult :=
  mkDetectionResult 0.5 ["spam"] 0.9 "" false.

Definition c5_content : IContent :=
  mkContent "tiktok" (mkEngagement 10 2 3 None) false ∅.

End ResponseExamples.

Module TrendSpec.

Import TrendAnalysisService.

Local Open Scope float_scope.

(** The scoring formulas as the design states them. *)
Definition spec_viralityScore (contentCount averageEngagement : number) : number :=
  (Math_min (contentCount / 100) 1 + Math_min (averageEngagement / 1000) 1) / 2.

Definition spec_riskScore (harmfulnessScore viralityScore platformCount : number)
    : number :=
  0.5 * harmfulnessScore + 0.3 * viralityScore + 0.2 * Math_min (platformCount / 5) 1.

Definition spec_riskLevel (riskScore : number) : Level :=
  if ge riskScore 0.85 then Critical
  else if ge riskScore 0.70 then High
  else if ge riskScore 0.50 then Medium
  else Low.

Definition storedTrend (w : World) (key : string) : option TrendData :=
  match strings (redis w) !! key with
  | Some (StoredTrend t, _) => Some t
  | _ => None
  end.

(** The Redis list a severity is read back from by the alert routes. *)
Definition severityList (l : Level) : string := "warnings:" +:+ Level_to_string l.

Definition promoted (trend : TrendData) : bool :=
  bool_decide (riskLevel trend = High ∨ riskLevel trend = Critical).

Definition activeWarnings (w : World) : list string :=
  default [] (lists (redis w) !! "warnings:active").

End TrendSpec.

Module TrendExamples.

Import TrendAnalysisService TrendSpec.

Local Open Scope float_scope.

Definition c3_service : Service := new_Service 0.75.

Definition c3_fights : CrossRow :=
  mkCrossRow (Some ["violence"]) (Some ["fightclub"]) ["tiktok"; "instagram"]
             30 0.8 45000
             (mkDate 1700000000000) (mkDate 1700003600000).

Definition c3_blackout : CrossRow :=
  mkCrossRow (Some ["dangerous_challenge"]) (Some ["blackout"]) ["tiktok"; "youtube"]
             40 0.9 90000
             (mkDate 1700000300000) (mkDate 1700003900000).

Definition c3_world : World := mkWorld (mkRedis ∅ ∅ ∅) [] 1700003600000.

(** The ledger after the first cycle, when the fights cluster is alone,
    and after the second, five minutes later, when a larger cluster ranks
    first. *)
Definition c3_cycle1 : list TrendData * World :=
  analyzeCurrentTrends c3_service [] [] [c3_fights] c3_world.

Definition c3_cycle2 : list TrendData * World :=
  analyzeCurrentTrends c3_service [] [] [c3_blackout; c3_fights]
    (mkWorld (redis (snd c3_cycle1)) (logs (snd c3_cycle1)) 1700003900000).

Definition c8_service : Service := new_Service 0.75.

Definition c8_row : GroupRow :=
  mkGroupRow "blackout" 120
             ["tiktok"; "instagram"; "youtube"; "twitter"; "reddit"]
             0.95 240000 [["dangerous_challenge"]]
             (mkDate 1700000000000) (mkDate 1700003600000).

Definition c8_world : World := mkWorld (mkRedis ∅ ∅ ∅) [] 1700003600000.

Definition c8_cycle : list TrendData * World :=
  analyzeCurrentTrends c8_service [c8_row] [] [] c8_world.

End TrendExamples.

(** ** Vocabulary for the further properties *)

(** The position of a binary64 value that is not NaN in the order of the
    comparisons: its class (the infinities, the negative and the positive
    numbers, zero), then exponent and mantissa. *)
Definition orderKey (x : spec_float) : option (Z * Z * Z) :=
  match x with
  | S754_nan => None
  | S754_infinity true => Some (-2, 0, 0)%Z
  | S754_infinity false => Some (2, 0, 0)%Z
  | S754_zero _ => Some (0, 0, 0)%Z
  | S754_finite false m e => Some (1, e, Z.pos m)%Z
  | S754_finite true m e => Some (-1, - e, Z.neg m)%Z
  end.

Definition lexCompare (a b : Z * Z * Z) : comparison :=
  match (a.1.1 ?= b.1.1)%Z with
  | Eq => match (a.1.2 ?= b.1.2)%Z with
          | Eq => (a.2 ?= b.2)%Z
          | c => c
          end
  | c => c
  end.

Definition lexLe (a b : Z * Z * Z) : Prop :=
  (a.1.1 < b.1.1
   ∨ (a.1.1 = b.1.1 ∧ (a.1.2 < b.1.2 ∨ (a.1.2 = b.1.2 ∧ a.2 ≤ b.2))))%Z.

Definition lexLt (a b : Z * Z * Z) : Prop :=
  (a.1.1 < b.1.1
   ∨ (a.1.1 = b.1.1 ∧ (a.1.2 < b.1.2 ∨ (a.1.2 = b.1.2 ∧ a.2 < b.2))))%Z.

Module ResponseVocabulary.

Import AutomatedResponseService.

Local Open Scope float_scope.

(** The fields of a document that identify it and that the rule engine
    reads. *)
Definition identity (c : IContent) : string * Engagement := (platform c, engagement c).

(** The [metadata] entries one action writes at date [at_], with the
    last write on top. *)
Definition metadataWrites (this : Service) (d : DetectionResult) (at_ : Date)
    (a : ResponseAction) : gmap string MetaValue :=
  let escalation :=
    <["reviewPriority" := MLevel (severity a)]>
      (<["escalatedAt" := MDate at_]>
         (<["escalationReason" := MString (reason a)]>
            (<["escalated" := MBool true]> ∅))) in
  match type a with
  | Flag => <["flags" := MFlags "automated" (reason a) (severity a) at_]> ∅
  | Remove =>
      if lt (harmfulnessScore d) (autoActionThreshold this) then escalation
      else <["removedBy" := MString "automated_system"]>
             (<["removedAt" := MDate at_]>
                (<["removeReason" := MString (reason a)]>
                   (<["removed" := MBool true]> ∅)))
  | Escalate => escalation
  | Warn =>
      <["warnedAt" := MDate at_]>
        (<["warningReason" := MString (reason a)]>
           (<["userWarned" := MBool true]> ∅))
  | Quarantine =>
      <["requiresReview" := MBool true]>
        (<["quarantinedAt" := MDate at_]>
           (<["quarantineReason" := MString (reason a)]>
              (<["quarantined" := MBool true]> ∅)))
  | Notify => ∅
  end.

(** A document with the entries [M] written over its metadata and, when
    [b], its analysis flag raised. *)
Definition overwrite (M : gmap string MetaValue) (b : bool) (c : IContent) : IContent :=
  mkContent (platform c) (engagement c) (b || analysisResults_flagged c)
            (M ∪ metadata c).

(** All the writes of a list of actions, the later ones on top. *)
Definition allWrites (this : Service) (d : DetectionResult) (at_ : Date)
    (actions : list ResponseAction) : gmap string MetaValue :=
  foldl (fun M a => metadataWrites this d at_ a ∪ M) ∅ actions.

Definition anyFlag (actions : list ResponseAction) : bool :=
  existsb (fun a => bool_decide (type a = Flag)) actions.

(** The actions that end on the escalation queue: the escalations and
    the removals the threshold turns into escalations. *)
Definition escalates (this : Service) (d : DetectionResult) (a : ResponseAction) : bool :=
  match type a with
  | Escalate => true
  | Remove => lt (harmfulnessScore d) (autoActionThreshold this)
  | _ => false
  end.

Definition escalationJobs (this : Service) (contentId : string) (d : DetectionResult)
    (actions : list ResponseAction) : list (QueueJob EscalationJob) :=
  (fun a => mkJob "escalate-content" (mkEscalationJob contentId a d)
                  (Some (getActionPriority a)) None)
    <$> filter (fun a => escalates this d a = true) actions.

(** The actions a response pass takes for a document. *)
Definition actionsFor (this : Service) (d : DetectionResult) (content : IContent)
    : list ResponseAction :=
  consolidateActions (findApplicableRules (escalationRules this) d content).

Definition setClock (t : Z) (w : World) : World :=
  mkWorld (contents w) (responseQueue w) (escalationQueue w) (redisLists w)
          (logs w) t.

(** The world after a response job, whether it returned or threw. *)
Definition afterResponse (this : Service) (job : QueueJob ProcessingJob) (w : World)
    : World :=
  snd (processContentResponse this job w).

Definition urgencyRank (l : Level) : Z :=
  match l with
  | Low => 0
  | Medium => 1
  | High => 2
  | Critical => 3
  end.

Definition lane (l : Level) : string := "escalation:" +:+ Level_to_string l.

(** The metadata key an action marks the document with, for the types
    that set one. *)
Definition marker (this : Service) (d : DetectionResult) (a : ResponseAction)
    : option string :=
  match type a with
  | Remove =>
      Some (if lt (harmfulnessScore d) (autoActionThreshold this)
            then "escalated" else "removed")
  | Escalate => Some "escalated"
  | Warn => Some "userWarned"
  | Quarantine => Some "quarantined"
  | Flag | Notify => None
  end.

(** A rule with the score range taken out of its conditions. *)
Definition withoutScoreBounds (rule : EscalationRule) : EscalationRule :=
  mkRule (id rule) (name rule)
         (mkConditions None (cond_categories (conditions rule))
                       (cond_platforms (conditions rule))
                       (cond_confidence (conditions rule))
                       (cond_viralityIndicators (conditions rule)))
         (actions rule) (priority rule) (enabled rule).

(** Every (type, severity) pair. *)
Definition allPairs : list (ActionType * Level) :=
  t ← [Flag; Remove; Escalate; Warn; Quarantine; Notify];
  s ← [Low; Medium; High; Critical];
  [(t, s)].

End ResponseVocabulary.

Module TrendVocabulary.

Import TrendAnalysisService TrendSpec.

Local Open Scope float_scope.

(** [a] does not sort after [b]: the order of [sort()] on strings. *)
Definition precedes (a b : string) : Prop := String.ltb b a = false.

(** The deduplication key of a trend, and the trend as [getTrendKey]
    leaves it. *)
Definition trendKey (trend : TrendData) : string := fst (getTrendKey trend).

Definition normalised (trend : TrendData) : TrendData := snd (getTrendKey trend).

(** The first trend of every key of [l] that is not in [seen], in the
    order of [l]. *)
Fixpoint firstByKey (seen : gset string) (l : list TrendData) : list TrendData :=
  match l with
  | [] => []
  | trend :: l' =>
      if bool_decide (trendKey trend ∈ seen) then firstByKey seen l'
      else normalised trend :: firstByKey ({[trendKey trend]} ∪ seen) l'
  end.

(** The id a warning for [trend] gets at clock value [now]. *)
Definition warningId (now : Z) (trend : TrendData) : string :=
  "warning_" +:+ id trend +:+ "_" +:+ pretty now.

Definition storedWarning (w : World) (key : string) : option (EarlyWarning * Z) :=
  match strings (redis w) !! key with
  | Some (StoredWarning warning, ttl) => Some (warning, ttl)
  | _ => None
  end.

(** The record [generateEarlyWarning] files for [trend] at clock value
    [now]. *)
Definition warningOf (now : Z) (trend : TrendData) : EarlyWarning :=
  mkWarning (warningId now trend) (generateWarningTitle trend)
            (generateWarningDescription trend) (riskLevel trend) trend
            (generateRecommendedActions trend) (mkDate (of_Z now)).

(** The members of the sorted set of active trends. *)
Definition activeTrends (w : World) : gmap string number :=
  default ∅ (zsets (redis w) !! "trending:active").

End TrendVocabulary.

(** * Properties *)

(** ** Facts about numbers

    Order and arithmetic facts on binary64 values, from the specification
    of the primitive operations. *)

Module NumberFacts.

Local Open Scope float_scope.

Lemma SFltb_irrefl (x : spec_float) : SFltb x x = false.
Proof.
  destruct x as [s|s| |s m e]; try destruct s; simpl; try reflexivity;
    unfold SFltb; simpl; rewrite Z.compare_refl, Pos.compare_cont_refl; reflexivity.
Qed.

Lemma ltb_irrefl (x : number) : (x <? x) = false.
Proof. rewrite ltb_spec. apply SFltb_irrefl. Qed.

Lemma compare_cont_swap (m m' : positive) :
  Pos.compare_cont Eq m' m = CompOpp (Pos.compare_cont Eq m m').
Proof. by rewrite Pos.compare_cont_antisym. Qed.

Lemma SFcompare_antisym (x y : spec_float) :
  SFcompare y x = CompOpp <$> SFcompare x y.
Proof.
  destruct x as [s|s| |s m e], y as [s'|s'| |s' m' e']; simpl;
    try destruct s; try destruct s'; simpl; try reflexivity;
    rewrite (Z.compare_antisym e e'), (compare_cont_swap m m');
    destruct (e ?= e')%Z; simpl; try reflexivity;
    destruct (Pos.compare_cont Eq m m'); reflexivity.
Qed.

Lemma ltb_leb_false (x y : number) : (x <? y) = true → (y <=? x) = false.
Proof.
  rewrite ltb_spec, leb_spec. unfold SFltb, SFleb.
  rewrite (SFcompare_antisym (Prim2SF x) (Prim2SF y)).
  destruct (SFcompare (Prim2SF x) (Prim2SF y)) as [[]|]; simpl; congruence.
Qed.

Lemma is_nan_spec (x : number) : is_nan x = false → Prim2SF x ≠ S754_nan.
Proof.
  unfold is_nan. rewrite FloatAxioms.eqb_spec. intros H Hx. by rewrite Hx in H.
Qed.

Lemma SFcompare_total (x y : spec_float) :
  x ≠ S754_nan → y ≠ S754_nan → ∃ c, SFcompare x y = Some c.
Proof.
  intros Hx Hy.
  destruct x as [s|s| |s m e], y as [s'|s'| |s' m' e']; try done; simpl; eauto.
Qed.

Lemma ltb_negb_leb (x y : number) :
  is_nan x = false → is_nan y = false → (x <? y) = negb (y <=? x).
Proof.
  intros Hx%is_nan_spec Hy%is_nan_spec. rewrite ltb_spec, leb_spec.
  unfold SFltb, SFleb. rewrite (SFcompare_antisym (Prim2SF x) (Prim2SF y)).
  destruct (SFcompare_total _ _ Hx Hy) as [c ->]. by destruct c.
Qed.

Lemma SFmul_comm (x y : spec_float) : SF64mul x y = SF64mul y x.
Proof.
  destruct x as [s|s| |s m e], y as [s'|s'| |s' m' e']; simpl; try reflexivity;
    rewrite ?(xorb_comm s s'); try reflexivity.
  unfold SF64mul, SFmul. by rewrite (xorb_comm s' s), (Pos.mul_comm m m'), (Z.add_comm e e').
Qed.

Lemma mul_comm (x y : number) : x * y = y * x.
Proof. apply Prim2SF_inj. rewrite !mul_spec. apply SFmul_comm. Qed.

Lemma SFsub_diag (x : spec_float) :
  match x with S754_nan | S754_infinity _ => False | _ => True end →
  SF64sub x x = S754_zero false.
Proof.
  destruct x as [s|s| |s m e]; try done; intros _.
  - by destruct s.
  - unfold SF64sub, SFsub. cbv zeta. by rewrite Z.sub_diag.
Qed.

Lemma is_finite_spec (x : number) :
  is_finite x = true →
  match Prim2SF x with S754_nan | S754_infinity _ => False | _ => True end.
Proof.
  unfold is_finite, is_nan, is_infinity. rewrite !FloatAxioms.eqb_spec, abs_spec.
  destruct (Prim2SF x) as [s|s| |s m e]; try done.
  by destruct s; vm_compute.
Qed.

Lemma sub_diag (x : number) : is_finite x = true → x - x = 0.
Proof.
  intros H%is_finite_spec. apply Prim2SF_inj. rewrite sub_spec.
  by rewrite SFsub_diag.
Qed.

End NumberFacts.

(** ** Facts about [Array.prototype.sort] and [Map] *)

Module ArrayFacts.

Section insertion.
Context {A : Type} (cmp : A → A → number).

Lemma sort_insert_perm (x : A) (l : list A) : sort_insert cmp x l ≡ₚ x :: l.
Proof.
  induction l as [|y l IH]; simpl; [done|].
  destruct (gt (cmp x y) 0%float); [|done].
  rewrite IH. apply Permutation_swap.
Qed.

Lemma Array_sort_perm (l : list A) : Array_sort cmp l ≡ₚ l.
Proof.
  induction l as [|x l IH]; simpl; [done|].
  by rewrite sort_insert_perm, IH.
Qed.

Lemma elem_of_Array_sort (x : A) (l : list A) : x ∈ Array_sort cmp l ↔ x ∈ l.
Proof. by rewrite Array_sort_perm. Qed.

(** When the comparator is the difference of an integer rank, as in
    [(a, b) => rank(b) - rank(a)], the result is in descending rank, and a
    list already in descending rank is left as it is. *)
Context (rank : A → Z).
Hypothesis cmp_rank :
  ∀ x y, gt (cmp x y) 0%float = bool_decide (rank x < rank y)%Z.

Lemma sort_insert_descending (x : A) (l : list A) :
  descending rank l → descending rank (sort_insert cmp x l).
Proof.
  unfold descending. induction l as [|y l IH]; simpl; intros Hl.
  - by repeat constructor.
  - apply StronglySorted_inv in Hl as [Hl Hy].
    rewrite cmp_rank. case_bool_decide as Hxy.
    + constructor; [by apply IH|].
      rewrite sort_insert_perm. constructor; [lia|done].
    + constructor; [by constructor|].
      constructor; [lia|].
      eapply Forall_impl; [exact Hy|]. intros z Hz. simpl in Hz. lia.
Qed.

Lemma Array_sort_descending (l : list A) : descending rank (Array_sort cmp l).
Proof.
  induction l as [|x l IH]; simpl; [constructor|].
  by apply sort_insert_descending.
Qed.

Lemma Array_sort_id (l : list A) : descending rank l → Array_sort cmp l = l.
Proof.
  unfold descending. induction l as [|x l IH]; simpl; intros Hl; [done|].
  apply StronglySorted_inv in Hl as [Hl Hx]. rewrite IH by done.
  destruct l as [|y l]; simpl; [done|].
  rewrite cmp_rank. apply Forall_cons in Hx as [Hxy _].
  by rewrite bool_decide_eq_false_2 by lia.
Qed.

End insertion.

Section map.
Context {V : Type}.

Lemma Map_get_None (k : string) (m : Map V) : Map_get k m = None ↔ k ∉ m.*1.
Proof.
  induction m as [|[k' v] m IH]; simpl.
  - split; [intros _|done]. apply not_elem_of_nil.
  - rewrite not_elem_of_cons. destruct (decide (k = k')); [|tauto].
    split; [done|]. intros [? _]. done.
Qed.

Lemma Map_get_Some (k : string) (m : Map V) (v : V) :
  Map_get k m = Some v → (k, v) ∈ m.
Proof.
  induction m as [|[k' v'] m IH]; simpl; [done|].
  destruct (decide (k = k')) as [->|].
  - intros [= ->]. apply list_elem_of_here.
  - intros H. apply list_elem_of_further. by apply IH.
Qed.

Lemma Map_set_fresh (k : string) (v : V) (m : Map V) :
  k ∉ m.*1 → Map_set k v m = m ++ [(k, v)].
Proof.
  induction m as [|[k' v'] m IH]; simpl; [done|].
  rewrite not_elem_of_cons. intros [Hne Hk].
  destruct (decide (k = k')); [done|]. by rewrite IH.
Qed.

End map.

End ArrayFacts.

(** ** The escalation rule engine and the response executor *)

Module ResponseProofs.

Import NumberFacts AutomatedResponseService ResponseSpec ResponseExamples.

Local Open Scope float_scope.

(** A score of at most 0.49 is below each of the three urgency
    breakpoints. *)
Lemma below_breakpoints (s : number) :
  le s 0.49 = true → ge s 0.95 = false ∧ ge s 0.85 = false ∧ ge s 0.7 = false.
Proof.
  unfold le, ge. rewrite !leb_spec.
  change (Prim2SF 0.49) with (S754_finite false 8827055269646172 (-54)).
  change (Prim2SF 0.95) with (S754_finite false 8556839292003942 (-53)).
  change (Prim2SF 0.85) with (S754_finite false 7656119366529843 (-53)).
  change (Prim2SF 0.7) with (S754_finite false 6305039478318694 (-53)).
  destruct (Prim2SF s) as [sg|sg| |sg m e]; try destruct sg; try done.
  unfold SFleb, SFcompare.
  destruct (Z.compare_spec e (-54)); destruct (Z.compare_spec (-53) e);
    try lia; done.
Qed.

Lemma hasHighRisk_spec (cats : list string) :
  existsb (fun cat => includes highRiskCategories cat) cats = true
  ↔ ∃ cat, cat ∈ cats ∧ cat ∈ highRiskCategories.
Proof.
  rewrite existsb_exists. unfold includes. split.
  - intros (cat & Hin & Hb). exists cat. split.
    + by apply list_elem_of_In.
    + by apply bool_decide_eq_true_1 in Hb.
  - intros (cat & Hin & Hb). exists cat. split.
    + by apply list_elem_of_In.
    + by apply bool_decide_eq_true_2.
Qed.

(** C2. [determineUrgency] is critical when the score is at least 0.95 or
    a category is one of self_harm, violence, dangerous_challenge and
    extremism; otherwise high from 0.85, medium from 0.70 and low below.
    In particular a score in [0, 0.49] without a high-risk category is low
    and a score in [0.95, 1] is critical. *)
Theorem C2_determineUrgency_tiers (d : DetectionResult) :
  let s := harmfulnessScore d in
  let highRisk :=
    ∃ cat, cat ∈ categories d
           ∧ cat ∈ ["self_harm"; "violence"; "dangerous_challenge"; "extremism"] in
  ((ge s 0.95 = true ∨ highRisk) → determineUrgency d = Critical)
  ∧ (¬ (ge s 0.95 = true ∨ highRisk) → ge s 0.85 = true →
     determineUrgency d = High)
  ∧ (¬ (ge s 0.95 = true ∨ highRisk) → ge s 0.85 = false → ge s 0.7 = true →
     determineUrgency d = Medium)
  ∧ (¬ (ge s 0.95 = true ∨ highRisk) → ge s 0.85 = false → ge s 0.7 = false →
     determineUrgency d = Low)
  ∧ (le 0 s = true → le s 0.49 = true → ¬ highRisk → determineUrgency d = Low)
  ∧ (le 0.95 s = true → le s 1 = true → determineUrgency d = Critical).
Proof.
  intros s highRisk. unfold determineUrgency. fold s.
  assert (Hcrit : ge s 0.95 || existsb (fun cat => includes highRiskCategories cat)
                                   (categories d) = true
                  ↔ (ge s 0.95 = true ∨ highRisk)).
  { rewrite orb_true_iff, hasHighRisk_spec. reflexivity. }
  destruct (ge s 0.95 || existsb _ (categories d)) eqn:E.
  - apply proj1 in Hcrit. specialize (Hcrit eq_refl).
    repeat split; try reflexivity; try (intros Hn; done).
    intros _ Hle Hnr. destruct (below_breakpoints s Hle) as (H95 & _).
    destruct Hcrit as [H|H]; [congruence|done].
  - assert (Hno : ¬ (ge s 0.95 = true ∨ highRisk)).
    { intros H. apply Hcrit in H. discriminate. }
    repeat split.
    + intros H. done.
    + intros _ ->. reflexivity.
    + intros _ -> ->. reflexivity.
    + intros _ -> ->. reflexivity.
    + intros _ Hle _. destruct (below_breakpoints s Hle) as (_ & -> & ->).
      reflexivity.
    + intros H _. exfalso. apply Hno. left. exact H.
Qed.

Lemma C2_witness :
  determineUrgency (mkDetectionResult 0.3 ["spam"] 0.9 "" false) = Low
  ∧ determineUrgency (mkDetectionResult 0.97 ["spam"] 0.9 "" true) = Critical.
Proof.
  split.
  - refine (proj1 (proj2 (proj2 (proj2 (proj2
      (C2_determineUrgency_tiers (mkDetectionResult 0.3 ["spam"] 0.9 "" false))))))
      eq_refl eq_refl _).
    intros (cat & Hcat & Hrisk). apply list_elem_of_singleton in Hcat as ->.
    repeat (apply elem_of_cons in Hrisk as [Hrisk|Hrisk]; [discriminate Hrisk|]).
    by apply elem_of_nil in Hrisk.
  - exact (proj2 (proj2 (proj2 (proj2 (proj2
      (C2_determineUrgency_tiers (mkDetectionResult 0.97 ["spam"] 0.9 "" true))))))
      eq_refl eq_refl).
Defined.

(** *** The removal override *)

Lemma removedMarks_update (contentId : string) (update : IContent → IContent)
    (w : World) :
  (∀ c, metadata (update c) !! "removed" = metadata c !! "removed") →
  removedMarks (findByIdAndUpdate contentId update w) = removedMarks w.
Proof.
  intros Hkeep. unfold removedMarks, findByIdAndUpdate. simpl.
  apply map_eq. intros i. rewrite !lookup_fmap, lookup_alter.
  destruct (decide (contentId = i)) as [->|]; [|done].
  destruct (contents w !! i) as [c|]; simpl; [|done].
  by rewrite Hkeep.
Qed.

Lemma removedMarks_logger l msg w : removedMarks (logger l msg w) = removedMarks w.
Proof. reflexivity. Qed.

Lemma removedMarks_escalationQueue_add job w :
  removedMarks (escalationQueue_add job w) = removedMarks w.
Proof. reflexivity. Qed.

Lemma removedMarks_redis_lPush key entry w :
  removedMarks (redis_lPush key entry w) = removedMarks w.
Proof. reflexivity. Qed.

Lemma removed_set_metadata key v c :
  key ≠ "removed" →
  metadata (set_metadata key v c) !! "removed" = metadata c !! "removed".
Proof. intros Hne. unfold set_metadata. simpl. by rewrite lookup_insert_ne. Qed.

Lemma removed_set_flagged b c :
  metadata (set_analysisResults_flagged b c) !! "removed" = metadata c !! "removed".
Proof. reflexivity. Qed.

(** Closes the goals on handlers that write other markers only. *)
Ltac keeps_removed :=
  cbv zeta;
  repeat first
    [ rewrite removedMarks_logger
    | rewrite removedMarks_escalationQueue_add
    | rewrite removedMarks_redis_lPush
    | rewrite removedMarks_update
        by (intros ?; rewrite ?removed_set_metadata, ?removed_set_flagged by done;
            reflexivity) ];
  try reflexivity.

Lemma removedMarks_escalateToHuman contentId action d w :
  removedMarks (escalateToHuman contentId action d w) = removedMarks w.
Proof. unfold escalateToHuman. keeps_removed. Qed.

Lemma removedMarks_flagContent contentId action d w :
  removedMarks (flagContent contentId action d w) = removedMarks w.
Proof. unfold flagContent. keeps_removed. Qed.

Lemma removedMarks_warnUser contentId action d w :
  removedMarks (warnUser contentId action d w) = removedMarks w.
Proof. unfold warnUser. destruct (contents w !! contentId); keeps_removed. Qed.

Lemma removedMarks_quarantineContent contentId action d w :
  removedMarks (quarantineContent contentId action d w) = removedMarks w.
Proof. unfold quarantineContent. keeps_removed. Qed.

Lemma removedMarks_notifyStakeholders contentId action d w :
  removedMarks (notifyStakeholders contentId action d w) = removedMarks w.
Proof. unfold notifyStakeholders. keeps_removed. Qed.

Lemma removedMarks_removeContent_below this contentId action d w :
  lt (harmfulnessScore d) (autoActionThreshold this) = true →
  removedMarks (removeContent this contentId action d w) = removedMarks w.
Proof.
  intros Hlt. unfold removeContent. rewrite Hlt. cbv zeta.
  by rewrite removedMarks_escalateToHuman, removedMarks_logger.
Qed.

Lemma removedMarks_executeAction_below this contentId action d w :
  lt (harmfulnessScore d) (autoActionThreshold this) = true →
  removedMarks (executeAction this contentId action d w) = removedMarks w.
Proof.
  intros Hlt. unfold executeAction. destruct (type action).
  - apply removedMarks_flagContent.
  - by apply removedMarks_removeContent_below.
  - apply removedMarks_escalateToHuman.
  - apply removedMarks_warnUser.
  - apply removedMarks_quarantineContent.
  - apply removedMarks_notifyStakeholders.
Qed.

(** A whole response pass on a score below the threshold leaves every
    removal marker as it was, whatever the rules say. *)
Lemma processContentResponse_never_removes this job w :
  lt (harmfulnessScore (detectionResult (jobData job))) (autoActionThreshold this)
  = true →
  removedMarks (snd (processContentResponse this job w)) = removedMarks w.
Proof.
  intros Hlt. unfold processContentResponse.
  destruct (contents w !! contentId (jobData job)) as [content|]; simpl; [|done].
  unfold logResponseActions. keeps_removed.
  generalize (consolidateActions
    (findApplicableRules (escalationRules this) (detectionResult (jobData job)) content)).
  intros actions. revert w. induction actions as [|a actions IH]; intros w; simpl; [done|].
  rewrite IH. by apply removedMarks_executeAction_below.
Qed.

(** C1. When the executor handles a [remove] action on a score strictly
    below the auto-action threshold, no document is marked removed; the
    override is logged as a warning, the content is marked escalated and
    one job is added to the escalation queue, whose processing puts the
    case on the review lane of the action's severity. *)
Theorem C1_remove_below_threshold_escalates (this : Service) (contentId : string)
    (action : ResponseAction) (d : DetectionResult) (w : World) :
  type action = Remove →
  lt (harmfulnessScore d) (autoActionThreshold this) = true →
  let w' := executeAction this contentId action d w in
  let job := mkJob "escalate-content" (mkEscalationJob contentId action d)
                   (Some (getActionPriority action)) None in
  removedMarks w' = removedMarks w
  ∧ contents w' !! contentId
    = escalated action (new_Date w) <$> contents w !! contentId
  ∧ (∀ c', contents w' !! contentId = Some c' →
           metadata c' !! "escalated" = Some (MBool true))
  ∧ escalationQueue w' = escalationQueue w ++ [job]
  ∧ logs w' = logs w ++ [overrideWarning this contentId d;
                         mkLog LogInfo
                           [Str ("Content escalated for human review: "
                                 +:+ contentId +:+ " ("
                                 +:+ Level_to_string (severity action) +:+ ")")]]
  ∧ redisLists (processEscalation job w')
      !! ("escalation:" +:+ Level_to_string (severity action))
    = Some (EscalationData contentId action d (new_Date w) (severity action)
            :: default [] (redisLists w
                             !! ("escalation:" +:+ Level_to_string (severity action)))).
Proof.
  intros Htype Hlt w' job.
  assert (Hw' : w' = escalateToHuman contentId action d
                       (logger LogWarn (message (overrideWarning this contentId d)) w)).
  { unfold w', executeAction, removeContent. by rewrite Htype, Hlt. }
  assert (Hc : contents w' !! contentId
               = escalated action (new_Date w) <$> contents w !! contentId).
  { rewrite Hw'. unfold escalateToHuman, logger, escalationQueue_add,
      findByIdAndUpdate. simpl. by rewrite lookup_alter_eq. }
  split; [|split; [|split; [|split; [|split]]]].
  - by apply removedMarks_executeAction_below.
  - exact Hc.
  - intros c'. rewrite Hc. destruct (contents w !! contentId) as [c|]; [|done].
    simpl. intros [= <-]. unfold escalated, set_metadata. simpl.
    rewrite !lookup_insert_ne by done. apply lookup_insert_eq.
  - by rewrite Hw'.
  - rewrite Hw'. unfold escalateToHuman, logger. simpl. by rewrite <- app_assoc.
  - rewrite Hw'. unfold processEscalation, handleEscalation, redis_lPush. simpl.
    by rewrite lookup_insert_eq.
Qed.

Lemma C1_witness :
  removedMarks (executeAction c1_service "c1" c1_action c1_detection c1_world)
  = removedMarks c1_world.
Proof.
  exact (proj1 (C1_remove_below_threshold_escalates c1_service "c1" c1_action
                  c1_detection c1_world eq_refl eq_refl)).
Defined.

(** C10. Without a [views] field the check is decided by the first two
    clauses alone: the item is viral exactly when likes + shares +
    comments exceed 1000 or shares exceed 100; otherwise the result is
    [undefined], which is falsy. *)
Theorem C10_virality_without_views (content : IContent) :
  views (engagement content) = None →
  let e := engagement content in
  let viral := gt (likes e + shares e + comments e) 1000 || gt (shares e) 100 in
  Viral_truthy (checkViralityIndicators content) = viral
  ∧ checkViralityIndicators content = (if viral then VBool true else VUndefined).
Proof.
  intros Hviews e viral. unfold checkViralityIndicators, viral, e.
  rewrite Hviews. cbv zeta.
  destruct (gt (likes _ + shares _ + comments _) 1000); simpl; [done|].
  destruct (gt (shares _) 100); done.
Qed.

Lemma C10_witness :
  Viral_truthy
    (checkViralityIndicators (mkContent "tiktok" (mkEngagement 10 150 5 None) false ∅))
  = true.
Proof.
  exact (proj1 (C10_virality_without_views
                  (mkContent "tiktok" (mkEngagement 10 150 5 None) false ∅) eq_refl)).
Defined.

(** *** Consolidation *)

Lemma actionKey_inj (a b : ResponseAction) :
  actionKey a = actionKey b ↔ pairOf a = pairOf b.
Proof.
  unfold actionKey, pairOf. split.
  - destruct (type a), (severity a), (type b), (severity b); intros H;
      first [reflexivity | cbv in H; discriminate H].
  - by intros [= -> ->].
Qed.

Lemma getActionPriority_derived (a : ResponseAction) :
  getActionPriority a = of_Z (derivedPriority a).
Proof.
  unfold getActionPriority, derivedPriority.
  by destruct (type a), (severity a).
Qed.

Lemma priority_comparator (x y : ResponseAction) :
  gt (getActionPriority y - getActionPriority x) 0
  = bool_decide (derivedPriority x < derivedPriority y)%Z.
Proof.
  unfold getActionPriority, derivedPriority.
  by destruct (type x), (severity x), (type y), (severity y).
Qed.

Lemma getActionPriority_key (a b : ResponseAction) :
  actionKey a = actionKey b → getActionPriority a = getActionPriority b.
Proof.
  intros [= Ht Hs]%actionKey_inj. unfold getActionPriority. by rewrite Ht, Hs.
Qed.

Lemma consolidateStep_spec (m : Map ResponseAction) (a : ResponseAction) :
  wellKeyed m →
  consolidateStep m a
  = if bool_decide (actionKey a ∈ m.*1) then m else m ++ [keyed a].
Proof.
  intros Hm. unfold consolidateStep. cbv zeta.
  destruct (Map_get (actionKey a) m) as [existing|] eqn:Hget.
  - assert (Hin : actionKey a ∈ m.*1).
    { destruct (decide (actionKey a ∈ m.*1)) as [|Hn]; [done|].
      apply ArrayFacts.Map_get_None in Hn. congruence. }
    rewrite bool_decide_eq_true_2 by done.
    apply ArrayFacts.Map_get_Some, Hm in Hget.
    rewrite (getActionPriority_key a existing) by done.
    unfold gt. by rewrite ltb_irrefl.
  - apply ArrayFacts.Map_get_None in Hget.
    rewrite bool_decide_eq_false_2 by done.
    by apply ArrayFacts.Map_set_fresh.
Qed.

Lemma wellKeyed_snoc (m : Map ResponseAction) (a : ResponseAction) :
  wellKeyed m → wellKeyed (m ++ [keyed a]).
Proof.
  intros Hm k v [Hin|Hin]%elem_of_app; [by apply Hm|].
  apply list_elem_of_singleton in Hin. by injection Hin as -> ->.
Qed.

Lemma foldl_consolidateStep (l : list ResponseAction) (m : Map ResponseAction) :
  wellKeyed m →
  foldl consolidateStep m l = m ++ (keyed <$> firstOccurrences (m.*1) l).
Proof.
  revert m. induction l as [|a l IH]; intros m Hm; simpl.
  - by rewrite app_nil_r.
  - rewrite consolidateStep_spec by done. case_bool_decide.
    + by apply IH.
    + rewrite IH by by apply wellKeyed_snoc.
      rewrite fmap_app. simpl. by rewrite <- app_assoc.
Qed.

Lemma foldl_rules (rules : list EscalationRule) (m : Map ResponseAction) :
  foldl (fun m rule => foldl consolidateStep m (actions rule)) m rules
  = foldl consolidateStep m (concat (actions <$> rules)).
Proof.
  revert m. induction rules as [|r rules IH]; intros m; simpl; [done|].
  by rewrite IH, foldl_app.
Qed.

(** [consolidateActions] sorts the first occurrences of the keys. *)
Lemma consolidateActions_firstOccurrences (rules : list EscalationRule) :
  consolidateActions rules
  = Array_sort (fun a b => getActionPriority b - getActionPriority a)
               (firstOccurrences [] (concat (actions <$> rules))).
Proof.
  unfold consolidateActions. cbv zeta. rewrite foldl_rules.
  rewrite foldl_consolidateStep by (intros k v Hin; by apply elem_of_nil in Hin).
  simpl. unfold Map_values. rewrite <- list_fmap_compose.
  by rewrite list_fmap_id.
Qed.

Lemma firstOccurrences_elem (a : ResponseAction) (seen : list string)
    (l : list ResponseAction) :
  a ∈ firstOccurrences seen l → a ∈ l ∧ actionKey a ∉ seen.
Proof.
  revert seen. induction l as [|b l IH]; intros seen; simpl.
  - by intros ?%elem_of_nil.
  - case_bool_decide as Hb.
    + intros [??]%IH. split; [by apply list_elem_of_further|done].
    + intros [->|Hin]%elem_of_cons.
      * split; [apply list_elem_of_here|done].
      * apply IH in Hin as [? Hn]. split; [by apply list_elem_of_further|].
        intros ?. apply Hn, elem_of_app. by left.
Qed.

Lemma firstOccurrences_NoDup (seen : list string) (l : list ResponseAction) :
  NoDup (actionKey <$> firstOccurrences seen l).
Proof.
  revert seen. induction l as [|b l IH]; intros seen; simpl.
  - constructor.
  - case_bool_decide; [apply IH|]. simpl. constructor; [|apply IH].
    intros (a & Hk & Hin)%list_elem_of_fmap.
    apply firstOccurrences_elem in Hin as [_ Hn].
    apply Hn, elem_of_app. right. rewrite Hk. apply list_elem_of_here.
Qed.

Lemma firstOccurrences_covers (a : ResponseAction) (seen : list string)
    (l : list ResponseAction) :
  a ∈ l → actionKey a ∈ seen ++ (actionKey <$> firstOccurrences seen l).
Proof.
  revert seen. induction l as [|b l IH]; intros seen; simpl.
  - by intros ?%elem_of_nil.
  - intros [->|Hin]%elem_of_cons.
    + case_bool_decide; rewrite elem_of_app; [by left|].
      right. simpl. apply list_elem_of_here.
    + case_bool_decide; [by apply IH|].
      apply (IH (seen ++ [actionKey b])) in Hin.
      rewrite <- (assoc_L (++)) in Hin. exact Hin.
Qed.

Lemma firstOccurrences_app (seen : list string) (l1 l2 : list ResponseAction) :
  firstOccurrences seen (l1 ++ l2)
  = firstOccurrences seen l1
    ++ firstOccurrences (seen ++ (actionKey <$> firstOccurrences seen l1)) l2.
Proof.
  revert seen. induction l1 as [|b l1 IH]; intros seen; simpl.
  - by rewrite app_nil_r.
  - case_bool_decide; [apply IH|]. simpl. rewrite IH.
    by rewrite <- (assoc_L (++)).
Qed.

Lemma firstOccurrences_id (seen : list string) (l : list ResponseAction) :
  NoDup (seen ++ (actionKey <$> l)) → firstOccurrences seen l = l.
Proof.
  revert seen. induction l as [|b l IH]; intros seen; simpl; [done|].
  intros Hnd. rewrite bool_decide_eq_false_2.
  - f_equal. apply IH. by rewrite <- (assoc_L (++)).
  - apply NoDup_app in Hnd as (_ & Hdisj & _). intros Hin.
    apply (Hdisj _ Hin). apply list_elem_of_here.
Qed.

(** The rule an action of the result comes from is the first one that
    contributes its key. *)
Lemma firstOccurrences_rule (a : ResponseAction) (rules : list EscalationRule)
    (seen : list string) :
  a ∈ firstOccurrences seen (concat (actions <$> rules)) →
  ∃ rs1 r rs2,
    rules = rs1 ++ r :: rs2 ∧ a ∈ actions r
    ∧ ∀ r' a', r' ∈ rs1 → a' ∈ actions r' → actionKey a' ≠ actionKey a.
Proof.
  revert seen. induction rules as [|r rules IH]; intros seen; simpl.
  - by intros ?%elem_of_nil.
  - rewrite firstOccurrences_app. intros [Hin|Hin]%elem_of_app.
    + exists [], r, rules. split; [done|]. split.
      * by apply firstOccurrences_elem in Hin as [? _].
      * by intros r' a' ?%elem_of_nil.
    + destruct (firstOccurrences_elem _ _ _ Hin) as [_ Hfresh].
      apply IH in Hin as (rs1 & r0 & rs2 & -> & Ha & Hrs1).
      exists (r :: rs1), r0, rs2. split; [done|]. split; [done|].
      intros r' a' [->|Hr']%elem_of_cons Ha' Hk; [|by eapply Hrs1].
      apply Hfresh. rewrite <- Hk. by apply firstOccurrences_covers.
Qed.

Lemma elem_of_flattened (a : ResponseAction) (rules : list EscalationRule) :
  a ∈ concat (actions <$> rules) ↔ ∃ r, r ∈ rules ∧ a ∈ actions r.
Proof.
  induction rules as [|r rules IH]; simpl.
  - split; [by intros ?%elem_of_nil|]. by intros (r & ?%elem_of_nil & _).
  - rewrite elem_of_app, IH. split.
    + intros [Ha|(r' & Hr' & Ha)].
      * exists r. split; [apply list_elem_of_here|done].
      * exists r'. split; [by apply list_elem_of_further|done].
    + intros (r' & [->|Hr']%elem_of_cons & Ha); [by left|].
      right. by exists r'.
Qed.

(** C4. On rules in descending priority, [consolidateActions] keeps one
    action for each (type, severity) pair that occurs, the one given by the
    first, hence highest-priority, rule that contributes the pair, and
    returns them in descending order of typeWeight(type) x
    severityWeight(severity), where the type weights are ordered
    remove > quarantine > escalate > flag > warn = notify. *)
Theorem C4_consolidateActions_keeps_highest_priority (rules : list EscalationRule) :
  byDescendingPriority rules →
  let out := consolidateActions rules in
  NoDup (pairOf <$> out)
  ∧ (∀ p, (∃ r, r ∈ rules ∧ contributes r p) ↔ p ∈ pairOf <$> out)
  ∧ (∀ a, a ∈ out →
       ∃ r, r ∈ rules ∧ a ∈ actions r
            ∧ ∀ r', r' ∈ rules → contributes r' (pairOf a) →
                    r' = r ∨ le (priority r') (priority r) = true)
  ∧ descending derivedPriority out
  ∧ (∀ a, getActionPriority a
          = of_Z (typeWeight (type a) * severityWeight (severity a)))
  ∧ (typeWeight Remove > typeWeight Quarantine
     ∧ typeWeight Quarantine > typeWeight Escalate
     ∧ typeWeight Escalate > typeWeight Flag
     ∧ typeWeight Flag > typeWeight Warn
     ∧ typeWeight Warn = typeWeight Notify)%Z.
Proof.
  intros Hsorted out.
  set (flat := concat (actions <$> rules)).
  set (firsts := firstOccurrences [] flat).
  assert (Hout : out ≡ₚ firsts).
  { unfold out. rewrite consolidateActions_firstOccurrences.
    apply ArrayFacts.Array_sort_perm. }
  assert (Hflat : ∀ a, a ∈ flat ↔ ∃ r, r ∈ rules ∧ a ∈ actions r).
  { intros a. apply elem_of_flattened. }
  split; [|split; [|split; [|split; [|split]]]].
  - rewrite Hout. unfold firsts.
    pose proof (firstOccurrences_NoDup [] flat) as Hnd.
    revert Hnd. generalize (firstOccurrences [] flat). intros l.
    induction l as [|a l IHl]; simpl; [constructor|].
    intros [Ha Hl]%NoDup_cons. constructor; [|by apply IHl].
    intros (b & Hp & Hb)%list_elem_of_fmap. apply Ha.
    apply list_elem_of_fmap. exists b. split; [|done]. by apply actionKey_inj.
  - intros p. rewrite Hout. split.
    + intros (r & Hr & a & Ha & <-).
      assert (Hin : a ∈ flat) by (apply Hflat; by exists r).
      apply (firstOccurrences_covers _ []) in Hin. simpl in Hin.
      apply list_elem_of_fmap in Hin as (b & Hk & Hb).
      apply list_elem_of_fmap. exists b. split; [|done]. by apply actionKey_inj.
    + intros (a & -> & Ha)%list_elem_of_fmap.
      apply firstOccurrences_elem in Ha as [Ha _].
      apply Hflat in Ha as (r & Hr & Ha'). exists r. split; [done|]. by exists a.
  - intros a Ha. rewrite Hout in Ha.
    apply firstOccurrences_rule in Ha as (rs1 & r & rs2 & Hrules & Ha & Hrs1).
    exists r. split; [|split; [done|]].
    { rewrite Hrules. apply elem_of_app. right. apply list_elem_of_here. }
    intros r' Hr' (a' & Ha' & Hp). rewrite Hrules in Hr'.
    apply elem_of_app in Hr' as [Hr'|[->|Hr']%elem_of_cons].
    + exfalso. eapply Hrs1; [done..|]. by apply actionKey_inj.
    + by left.
    + right. unfold byDescendingPriority in Hsorted. rewrite Hrules in Hsorted.
      apply StronglySorted_app_1_r, StronglySorted_inv in Hsorted as [_ Hall].
      by eapply Forall_forall in Hall.
  - unfold out. rewrite consolidateActions_firstOccurrences.
    apply (ArrayFacts.Array_sort_descending _ derivedPriority).
    intros x y. apply priority_comparator.
  - apply getActionPriority_derived.
  - done.
Qed.

(** C9. The consolidated list has no two actions with the same (type,
    severity) pair, and consolidating it again, each action as the only
    action of a rule, gives the same list. *)
Theorem C9_consolidateActions_idempotent (rules : list EscalationRule)
    (template : EscalationRule) :
  let out := consolidateActions rules in
  NoDup (pairOf <$> out)
  ∧ consolidateActions (singletonRule template <$> out) = out.
Proof.
  intros out.
  assert (Hkeys : NoDup (actionKey <$> out)).
  { unfold out. rewrite consolidateActions_firstOccurrences.
    rewrite ArrayFacts.Array_sort_perm. apply firstOccurrences_NoDup. }
  split.
  - revert Hkeys. generalize out. intros l.
    induction l as [|a l IHl]; simpl; [constructor|].
    intros [Ha Hl]%NoDup_cons. constructor; [|by apply IHl].
    intros (b & Hp & Hb)%list_elem_of_fmap. apply Ha.
    apply list_elem_of_fmap. exists b. split; [|done]. by apply actionKey_inj.
  - rewrite consolidateActions_firstOccurrences.
    assert (Hflat : concat (actions <$> (singletonRule template <$> out)) = out).
    { generalize out. intros l. induction l as [|a l IHl]; [done|].
      rewrite !fmap_cons. simpl. by f_equal. }
    rewrite Hflat, firstOccurrences_id by done.
    apply (ArrayFacts.Array_sort_id _ derivedPriority).
    + intros x y. apply priority_comparator.
    + unfold out. rewrite consolidateActions_firstOccurrences.
      apply (ArrayFacts.Array_sort_descending _ derivedPriority).
      intros x y. apply priority_comparator.
Qed.

Lemma C4_witness :
  byDescendingPriority c4_rules
  ∧ consolidateActions c4_rules
    = [ mkAction Remove Critical true "Self-harm content detected";
        mkAction Escalate Medium true "Low confidence high harm - needs human review";
        mkAction Notify Critical true "Mental health crisis alert" ]
  ∧ NoDup (pairOf <$> consolidateActions c4_rules).
Proof.
  assert (H : byDescendingPriority c4_rules).
  { vm_compute. repeat constructor. }
  split; [exact H|]. split; [reflexivity|].
  exact (proj1 (C4_consolidateActions_keeps_highest_priority c4_rules H)).
Defined.

(** *** Rule selection *)

Lemma findApplicableRules_elem (rules : list EscalationRule) (d : DetectionResult)
    (content : IContent) (r : EscalationRule) :
  r ∈ findApplicableRules rules d content ↔ r ∈ rules ∧ ruleApplies d content r = true.
Proof.
  unfold findApplicableRules.
  rewrite ArrayFacts.elem_of_Array_sort, list_elem_of_filter. tauto.
Qed.

Lemma some_includes_swap (l1 l2 : list string) :
  existsb (fun cat => includes l2 cat) l1 = existsb (fun cat => includes l1 cat) l2.
Proof.
  apply eq_true_iff_eq. rewrite !existsb_exists. unfold includes.
  split; intros (x & Hx & Hb); apply bool_decide_eq_true_1 in Hb;
    exists x; (split; [by apply list_elem_of_In|]);
    apply bool_decide_eq_true_2; by apply list_elem_of_In.
Qed.

Lemma truthy_not_nan (m : number) : truthy m = true → is_nan m = false.
Proof. unfold truthy. destruct (is_zero m), (is_nan m); done. Qed.

(** Away from zero and NaN the filter selects exactly the rules whose
    specified bounds hold. *)
Lemma ruleApplies_selectedBySpec (d : DetectionResult) (content : IContent)
    (rule : EscalationRule) :
  is_nan (harmfulnessScore d) = false →
  is_nan (confidence d) = false →
  plainBounds (conditions rule) →
  ruleApplies d content rule = selectedBySpec d content rule.
Proof.
  intros Hs Hc (Hmin & Hmax & Hconf).
  unfold ruleApplies, selectedBySpec, conditionsHold. cbv zeta.
  destruct (enabled rule); simpl; [|done].
  destruct (conditions rule) as [range cats ps conf viral]; simpl in *.
  assert (Hrange :
    match range with
    | Some range =>
        match min range with
        | Some m => truthy m && lt (harmfulnessScore d) m
        | None => false
        end
        || match max range with
           | Some m => truthy m && gt (harmfulnessScore d) m
           | None => false
           end
    | None => false
    end
    = negb match range with
           | Some range =>
               match min range with
               | Some m => ge (harmfulnessScore d) m
               | None => true
               end
               && match max range with
                  | Some m => le (harmfulnessScore d) m
                  | None => true
                  end
           | None => true
           end).
  { destruct range as [[mn mx]|]; simpl; [|done].
    rewrite negb_andb. f_equal.
    - destruct mn as [m|]; [|done].
      rewrite (Hmin _ m eq_refl eq_refl). simpl. unfold lt, ge.
      apply ltb_negb_leb; [done|]. apply truthy_not_nan. by eapply Hmin.
    - destruct mx as [m|]; [|done].
      rewrite (Hmax _ m eq_refl eq_refl). simpl. unfold gt, le.
      apply ltb_negb_leb; [|done]. apply truthy_not_nan. by eapply Hmax. }
  rewrite Hrange. clear Hrange.
  destruct (match range with Some _ => _ | None => true end); simpl; [|done].
  assert (Hconf' :
    match conf with
    | Some (Some m) => truthy m && lt (confidence d) m
    | _ => false
    end
    = negb match conf with
           | Some (Some m) => ge (confidence d) m
           | _ => true
           end).
  { destruct conf as [[m|]|]; [|done..].
    rewrite (Hconf m eq_refl). simpl. unfold lt, ge.
    apply ltb_negb_leb; [done|]. apply truthy_not_nan. by apply Hconf. }
  rewrite Hconf'. clear Hconf'.
  destruct (match conf with Some (Some _) => _ | _ => true end); simpl; [|done].
  assert (Hcats :
    match cats with
    | Some cats =>
        bool_decide (0 < length cats)%nat
        && negb (existsb (fun cat => includes (categories d) cat) cats)
    | None => false
    end
    = negb match cats with
           | Some (cat :: cats) =>
               existsb (fun found => includes (cat :: cats) found) (categories d)
           | _ => true
           end).
  { destruct cats as [[|cat cats]|]; [done| |done].
    rewrite bool_decide_eq_true_2 by (simpl; lia).
    by rewrite (some_includes_swap (categories d)). }
  rewrite Hcats. clear Hcats.
  destruct (match cats with Some (_ :: _) => _ | _ => true end); simpl; [|done].
  assert (Hps :
    match ps with
    | Some ps => bool_decide (0 < length ps)%nat && negb (includes ps (platform content))
    | None => false
    end
    = negb match ps with
           | Some (p :: ps) => includes (p :: ps) (platform content)
           | _ => true
           end).
  { destruct ps as [[|p ps]|]; [done| |done].
    by rewrite bool_decide_eq_true_2 by (simpl; lia). }
  rewrite Hps. clear Hps.
  destruct (match ps with Some (_ :: _) => _ | _ => true end); simpl; [|done].
  destruct viral as [[]|]; simpl; [|done..].
  by destruct (Viral_truthy (checkViralityIndicators content)).
Qed.

(** C5. A rule whose score range has [max] 0 is selected for a score of
    0.5: the guard [max && score > max] reads the bound 0 as absent, while
    the specified selection rejects the rule because 0.5 exceeds 0. *)
Theorem C5_zero_max_bound_is_ignored :
  findApplicableRules [c5_rule] c5_detection c5_content = [c5_rule]
  ∧ ruleApplies c5_detection c5_content c5_rule = true
  ∧ selectedBySpec c5_detection c5_content c5_rule = false
  ∧ gt (harmfulnessScore c5_detection) 0 = true.
Proof. repeat split; reflexivity. Qed.

(** *** The scenarios of the design, run *)

Example scenario_self_harm_is_removed :
  let d := mkDetectionResult 0.97 ["self_harm"] 0.9 "" true in
  let job := mkJob "handle-content" (mkProcessingJob "c1" d (determineUrgency d))
                   None None in
  let w' := snd (processContentResponse defaultService job c1_world) in
  determineUrgency d = Critical
  ∧ (fun c => metadata c !! "removed") <$> contents w' !! "c1" = Some (Some (MBool true))
  ∧ escalationQueue_types w' = [Escalate].
Proof. by vm_compute. Qed.

Example scenario_viral_violence_is_quarantined :
  let d := mkDetectionResult 0.80 ["violence"] 0.9 "" true in
  let content := mkContent "tiktok" (mkEngagement 10 150 5 None) true ∅ in
  (fun a => (type a, severity a))
    <$> consolidateActions (findApplicableRules getDefaultEscalationRules d content)
  = [(Quarantine, High); (Escalate, High); (Escalate, Medium)].
Proof. by vm_compute. Qed.

End ResponseProofs.

(** ** The trend scorer, the ledger and the warning emitter *)

Module TrendProofs.

Import NumberFacts TrendAnalysisService TrendSpec TrendExamples.

Local Open Scope float_scope.

(** *** The scorer *)

Lemma riskScore_spec (harmfulnessScore viralityScore platformCount : number) :
  riskScore harmfulnessScore viralityScore platformCount
  = spec_riskScore harmfulnessScore viralityScore platformCount.
Proof.
  unfold riskScore, spec_riskScore.
  by rewrite (mul_comm harmfulnessScore), (mul_comm viralityScore),
             (mul_comm (Math_min _ _)).
Qed.

Lemma calculateRiskLevel_spec (harmfulnessScore viralityScore platformCount : number) :
  calculateRiskLevel harmfulnessScore viralityScore platformCount
  = spec_riskLevel (spec_riskScore harmfulnessScore viralityScore platformCount).
Proof.
  unfold calculateRiskLevel, spec_riskLevel. by rewrite riskScore_spec.
Qed.

(** C6. The scorer computes viralityScore = (min(contentCount/100, 1) +
    min(averageEngagement/1000, 1)) / 2, riskScore = 0.5 harmfulness +
    0.3 virality + 0.2 min(platformCount/5, 1), and the level critical
    from 0.85, high from 0.70, medium from 0.50 and low below. *)
Theorem C6_scorer_formulas (trendDetectionThreshold : number)
    (contentCount averageEngagement harmfulnessScore viralityScore platformCount
       : number) :
  let this := new_Service trendDetectionThreshold in
  let r := riskScore harmfulnessScore viralityScore platformCount in
  let level := calculateRiskLevel harmfulnessScore viralityScore platformCount in
  calculateViralityScore this contentCount averageEngagement
  = spec_viralityScore contentCount averageEngagement
  ∧ r = spec_riskScore harmfulnessScore viralityScore platformCount
  ∧ level = spec_riskLevel (spec_riskScore harmfulnessScore viralityScore platformCount)
  ∧ (level = Critical ↔ ge r 0.85 = true)
  ∧ (level = High ↔ ge r 0.85 = false ∧ ge r 0.70 = true)
  ∧ (level = Medium ↔ ge r 0.85 = false ∧ ge r 0.70 = false ∧ ge r 0.50 = true)
  ∧ (level = Low ↔ ge r 0.85 = false ∧ ge r 0.70 = false ∧ ge r 0.50 = false).
Proof.
  intros this r level.
  split; [reflexivity|]. split; [apply riskScore_spec|].
  split; [apply calculateRiskLevel_spec|].
  unfold level, calculateRiskLevel. fold r.
  destruct (ge r 0.85); [intuition congruence|].
  destruct (ge r 0.7); [intuition congruence|].
  destruct (ge r 0.5); intuition congruence.
Qed.

(** C7. A cluster whose two timestamps are the same valid date has growth
    rate exactly 0, and a cluster with a positive span in hours has growth
    rate contentCount divided by that span. *)
Theorem C7_growth_rate (firstDetected lastUpdated : Date) (contentCount : number) :
  (isValidDate firstDetected = true → getTime lastUpdated = getTime firstDetected →
   calculateGrowthRate firstDetected lastUpdated contentCount = 0)
  ∧ (gt (timeSpanHours firstDetected lastUpdated) 0 = true →
     calculateGrowthRate firstDetected lastUpdated contentCount
     = contentCount / timeSpanHours firstDetected lastUpdated)
  ∧ timeSpanHours firstDetected lastUpdated
    = (getTime lastUpdated - getTime firstDetected) / 3600000.
Proof.
  split; [|split].
  - intros Hvalid Heq. unfold calculateGrowthRate, timeSpanHours.
    rewrite Heq, sub_diag by done. reflexivity.
  - intros Hpos. unfold calculateGrowthRate. unfold gt in Hpos.
    unfold le. by rewrite (ltb_leb_false _ _ Hpos).
  - reflexivity.
Qed.

Lemma C7_witness :
  calculateGrowthRate (mkDate 1700000000000) (mkDate 1700000000000) 12 = 0
  ∧ calculateGrowthRate (mkDate 1700000000000) (mkDate 1700010800000) 12 = 4.
Proof.
  split.
  - exact (proj1 (C7_growth_rate (mkDate 1700000000000) (mkDate 1700000000000) 12)
             eq_refl eq_refl).
  - exact (proj1 (proj2 (C7_growth_rate (mkDate 1700000000000)
                           (mkDate 1700010800000) 12)) eq_refl).
Defined.

(** The scores of a trend built by [createTrendData] follow the same
    formulas; a missing or empty platform list counts as one platform. *)
Lemma createTrendData_scores (trendDetectionThreshold : number) (now : Z)
    (data : PartialTrendData) :
  let t := createTrendData (new_Service trendDetectionThreshold) now data in
  viralityScore t = spec_viralityScore (contentCount t) (averageEngagement t)
  ∧ riskLevel t
    = spec_riskLevel
        (spec_riskScore (harmfulnessScore t) (viralityScore t)
           (or_default ((fun l => of_nat (length l)) <$> p_platforms data) 1))
  ∧ growthRate t = calculateGrowthRate (firstDetected t) (lastUpdated t) (contentCount t).
Proof.
  intros t. split; [reflexivity|]. split; [|reflexivity].
  unfold t, createTrendData. cbv zeta. simpl.
  apply calculateRiskLevel_spec.
Qed.

(** *** Trend identity *)

Lemma truthy_str_app (s1 s2 : string) :
  truthy_str s1 = true → truthy_str (s1 +:+ s2) = true.
Proof. by destruct s1. Qed.

Lemma createTrendData_id (this : Service) (now : Z) (data : PartialTrendData)
    (i : string) :
  p_id data = Some i → truthy_str i = true →
  id (createTrendData this now data) = i.
Proof. intros Hid Hi. unfold createTrendData. simpl. by rewrite Hid, Hi. Qed.

(** The hashtag and keyword passes name a trend after its signal. *)
Lemma hashtag_trend_id (this : Service) (now : Z) (results : list GroupRow) :
  id <$> detectTrendingHashtags this now results
  = (fun row => "hashtag_" +:+ row_id row) <$> results.
Proof.
  unfold detectTrendingHashtags. rewrite <- list_fmap_compose.
  apply list_fmap_ext. intros i row _.
  by apply createTrendData_id; [|apply truthy_str_app].
Qed.

Lemma keyword_trend_id (this : Service) (now : Z) (results : list GroupRow) :
  id <$> detectTrendingKeywords this now results
  = (fun row => "keyword_" +:+ row_id row) <$> results.
Proof.
  unfold detectTrendingKeywords. rewrite <- list_fmap_compose.
  apply list_fmap_ext. intros i row _.
  by apply createTrendData_id; [|apply truthy_str_app].
Qed.

(** The cross-platform pass names a trend after its rank in the query
    result, whatever its signals are. *)
Lemma crossplatform_trend_id (this : Service) (now : Z) (results : list CrossRow)
    (index : nat) (row : CrossRow) :
  results !! index = Some row →
  id <$> (detectCrossPlatformTrends this now results !! index)
  = Some ("crossplatform_" +:+ pretty index).
Proof.
  intros Hrow. unfold detectCrossPlatformTrends.
  rewrite list_lookup_imap, Hrow. reflexivity.
Qed.

(** C3. Two cycles that observe the same cross-platform cluster (same
    hashtags, keywords and categories, hence the same normalized key) give
    it the ids crossplatform_0 and crossplatform_1, because a larger
    cluster ranks first in the second cycle; the ledger then holds the
    cluster twice, and its first entry has been taken over by the other
    cluster. *)
Theorem C3_crossplatform_id_follows_rank :
  ∃ t1 t2,
    detectCrossPlatformTrends c3_service 1700003600000 [c3_fights] !! 0%nat
    = Some t1
    ∧ detectCrossPlatformTrends c3_service 1700003900000
        [c3_blackout; c3_fights] !! 1%nat = Some t2
    ∧ hashtags t1 = hashtags t2 ∧ keywords t1 = keywords t2
    ∧ categories t1 = categories t2
    ∧ fst (getTrendKey t1) = fst (getTrendKey t2)
    ∧ id t1 = "crossplatform_0" ∧ id t2 = "crossplatform_1"
    ∧ hashtags <$> storedTrend (snd c3_cycle1) "trend:crossplatform_0"
      = Some ["fightclub"]
    ∧ hashtags <$> storedTrend (snd c3_cycle2) "trend:crossplatform_0"
      = Some ["blackout"]
    ∧ hashtags <$> storedTrend (snd c3_cycle2) "trend:crossplatform_1"
      = Some ["fightclub"].
Proof.
  eexists _, _. split; [reflexivity|]. split; [reflexivity|].
  repeat split; by vm_compute.
Qed.

(** *** Early warnings *)

Lemma lists_storeTrendData (trend : TrendData) (w : World) :
  lists (redis (storeTrendData trend w)) = lists (redis w).
Proof. reflexivity. Qed.

Lemma lists_generateEarlyWarning (trend : TrendData) (w : World) :
  lists (redis (generateEarlyWarning trend w))
  = <["warnings:active" :=
        ("warning_" +:+ id trend +:+ "_" +:+ pretty (clock w)) :: activeWarnings w]>
      (lists (redis w)).
Proof. reflexivity. Qed.

Lemma storeAndWarn_other_lists (trends : list TrendData) (w : World)
    (key : string) :
  key ≠ "warnings:active" →
  lists (redis (foldl storeAndWarn w trends)) !! key = lists (redis w) !! key.
Proof.
  intros Hkey. revert w. induction trends as [|t trends IH]; intros w; [done|].
  simpl. rewrite IH. unfold storeAndWarn. cbv zeta. fold (promoted t).
  destruct (promoted t); [|done].
  rewrite lists_generateEarlyWarning, lookup_insert_ne by done.
  by rewrite lists_storeTrendData.
Qed.

Lemma storeAndWarn_active (trends : list TrendData) (w : World) :
  length (activeWarnings (foldl storeAndWarn w trends))
  = (length (activeWarnings w) + length (filter (fun t => promoted t = true) trends))%nat.
Proof.
  revert w. induction trends as [|t trends IH]; intros w; [simpl; lia|].
  simpl. rewrite IH, filter_cons. unfold storeAndWarn. cbv zeta.
  fold (promoted t).
  destruct (promoted t).
  - rewrite decide_True by done. simpl.
    unfold activeWarnings at 1. rewrite lists_generateEarlyWarning, lookup_insert_eq.
    simpl. unfold activeWarnings. rewrite lists_storeTrendData. lia.
  - rewrite decide_False by done.
    unfold activeWarnings. by rewrite lists_storeTrendData.
Qed.

(** A cycle pushes one id per high or critical trend on [warnings:active]
    and touches no other list, the per-severity ones included. *)
Lemma analyzeCurrentTrends_lists (this : Service)
    (hashtagResults keywordResults : list GroupRow) (crossResults : list CrossRow)
    (w : World) :
  let '(trends, w') :=
    analyzeCurrentTrends this hashtagResults keywordResults crossResults w in
  length (activeWarnings w')
  = (length (activeWarnings w) + length (filter (fun t => promoted t = true) trends))%nat
  ∧ ∀ l, lists (redis w') !! severityList l = lists (redis w) !! severityList l.
Proof.
  unfold analyzeCurrentTrends. cbv zeta. split.
  - apply storeAndWarn_active.
  - intros l. apply storeAndWarn_other_lists. by destruct l.
Qed.

(** C8. A cycle with one critical trend creates one warning with a 7-day
    expiry and pushes its id on [warnings:active]; the list of its
    severity, [warnings:critical], which the alert routes read, stays
    absent, as does every other per-severity list. *)
Theorem C8_severity_list_is_never_written :
  riskLevel <$> fst c8_cycle = [Critical]
  ∧ lists (redis (snd c8_cycle)) !! "warnings:active"
    = Some ["warning_hashtag_blackout_1700003600000"]
  ∧ snd <$> (strings (redis (snd c8_cycle))
               !! "warning:warning_hashtag_blackout_1700003600000")
    = Some 604800%Z
  ∧ lists (redis (snd c8_cycle)) !! "warnings:critical" = None
  ∧ ∀ l, lists (redis (snd c8_cycle)) !! severityList l = None.
Proof.
  repeat split; try by vm_compute.
  intros l. by destruct l; vm_compute.
Qed.

(** *** The hashtag scenario of the design, run *)

Example scenario_hashtag_trend :
  let row := mkGroupRow "X" 12 ["tiktok"] 0.80 6000 [["violence"]]
                        (mkDate 1700000000000) (mkDate 1700010800000) in
  (fun t => (id t, contentCount t, growthRate t, viralityScore t, riskLevel t))
    <$> detectTrendingHashtags (new_Service 0.75) 1700010800000 [row]
  = [("hashtag_X", 12, 4, 0.31, Medium)].
Proof. by vm_compute. Qed.

End TrendProofs.

(** ** The order of numbers *)

Module NumberOrder.

Import NumberFacts.

Local Open Scope float_scope.

Lemma SFcompare_orderKey (x y : spec_float) :
  SFcompare x y
  = match orderKey x, orderKey y with
    | Some a, Some b => Some (lexCompare a b)
    | _, _ => None
    end.
Proof.
  destruct x as [s|s| |s m e], y as [s'|s'| |s' m' e'];
    try destruct s; try destruct s'; try reflexivity;
    unfold SFcompare, orderKey, lexCompare; cbn [fst snd Z.compare].
  cbn [Pos.compare Pos.compare_cont CompOpp].
  rewrite Z.compare_opp, (Z.compare_antisym e e').
  by destruct (e ?= e')%Z.
Qed.

Lemma lexCompare_le (a b : Z * Z * Z) : lexCompare a b ≠ Gt ↔ lexLe a b.
Proof.
  unfold lexCompare, lexLe.
  destruct (Z.compare_spec a.1.1 b.1.1), (Z.compare_spec a.1.2 b.1.2),
    (Z.compare_spec a.2 b.2); split; intros; try done; lia.
Qed.

Lemma lexCompare_lt (a b : Z * Z * Z) : lexCompare a b = Lt ↔ lexLt a b.
Proof.
  unfold lexCompare, lexLt.
  destruct (Z.compare_spec a.1.1 b.1.1), (Z.compare_spec a.1.2 b.1.2),
    (Z.compare_spec a.2 b.2); split; intros; try done; lia.
Qed.

Lemma leb_orderKey (x y : number) :
  (x <=? y) = true
  ↔ ∃ a b, orderKey (Prim2SF x) = Some a ∧ orderKey (Prim2SF y) = Some b ∧ lexLe a b.
Proof.
  rewrite leb_spec. unfold SFleb. rewrite SFcompare_orderKey.
  destruct (orderKey (Prim2SF x)) as [a|], (orderKey (Prim2SF y)) as [b|];
    try (split; [done|by intros (? & ? & ? & ? & ?)]).
  split.
  - intros H. exists a, b. repeat split. apply lexCompare_le.
    by destruct (lexCompare a b).
  - intros (a' & b' & [= <-] & [= <-] & H%lexCompare_le).
    by destruct (lexCompare a b).
Qed.

Lemma ltb_orderKey (x y : number) :
  (x <? y) = true
  ↔ ∃ a b, orderKey (Prim2SF x) = Some a ∧ orderKey (Prim2SF y) = Some b ∧ lexLt a b.
Proof.
  rewrite ltb_spec. unfold SFltb. rewrite SFcompare_orderKey.
  destruct (orderKey (Prim2SF x)) as [a|], (orderKey (Prim2SF y)) as [b|];
    try (split; [done|by intros (? & ? & ? & ? & ?)]).
  split.
  - intros H. exists a, b. repeat split. apply lexCompare_lt.
    by destruct (lexCompare a b).
  - intros (a' & b' & [= <-] & [= <-] & H%lexCompare_lt). by rewrite H.
Qed.

(** Brings every comparison of the context to order keys and closes the
    goal by linear arithmetic. *)
Ltac by_order :=
  repeat match goal with
         | H : (_ <=? _) = true |- _ =>
             apply leb_orderKey in H as (? & ? & ? & ? & ?)
         | H : (_ <? _) = true |- _ =>
             apply ltb_orderKey in H as (? & ? & ? & ? & ?)
         end;
  simplify_eq;
  first [apply leb_orderKey | apply ltb_orderKey];
  eexists _, _; split; [eassumption|]; split; [eassumption|];
  unfold lexLe, lexLt in *; lia.

Lemma leb_trans (x y z : number) :
  (x <=? y) = true → (y <=? z) = true → (x <=? z) = true.
Proof. intros Hxy Hyz. by_order. Qed.

Lemma ltb_leb_trans (x y z : number) :
  (x <? y) = true → (y <=? z) = true → (x <? z) = true.
Proof. intros Hxy Hyz. by_order. Qed.

Lemma leb_ltb_trans (x y z : number) :
  (x <=? y) = true → (y <? z) = true → (x <? z) = true.
Proof. intros Hxy Hyz. by_order. Qed.

(** NaN is below nothing and nothing is below NaN. *)
Lemma orderKey_nan (x : number) : is_nan x = true → orderKey (Prim2SF x) = None.
Proof.
  unfold is_nan. rewrite FloatAxioms.eqb_spec. unfold SFeqb.
  rewrite SFcompare_orderKey.
  destruct (orderKey (Prim2SF x)) as [[[a b] c]|]; [|done].
  unfold lexCompare. simpl. by rewrite !Z.compare_refl.
Qed.

Lemma ltb_nan_l (x y : number) : is_nan x = true → (x <? y) = false.
Proof.
  intros Hx. apply orderKey_nan in Hx.
  destruct (x <? y) eqn:H; [|done].
  apply ltb_orderKey in H as (a & b & Ha & _). congruence.
Qed.

Lemma ltb_nan_r (x y : number) : is_nan y = true → (x <? y) = false.
Proof.
  intros Hy. apply orderKey_nan in Hy.
  destruct (x <? y) eqn:H; [|done].
  apply ltb_orderKey in H as (a & b & _ & Hb & _). congruence.
Qed.

(** Zero is above no positive number. *)
Lemma orderKey_zero (x : number) :
  is_zero x = true → orderKey (Prim2SF x) = Some (0, 0, 0)%Z.
Proof.
  unfold is_zero. rewrite FloatAxioms.eqb_spec. unfold SFeqb.
  rewrite SFcompare_orderKey.
  destruct (orderKey (Prim2SF x)) as [[[a b] c]|]; [|done].
  change (orderKey (Prim2SF zero)) with (Some (0, 0, 0)%Z).
  unfold lexCompare. cbn [fst snd].
  destruct (Z.compare_spec a 0), (Z.compare_spec b 0), (Z.compare_spec c 0);
    try done; intros _; by subst.
Qed.

Lemma falsy_not_above (x y : number) :
  truthy x = false → (0 <? y) = true → (y <? x) = false.
Proof.
  unfold truthy. intros Hx Hy.
  destruct (is_nan x) eqn:Hnan; [by apply ltb_nan_r|].
  rewrite orb_false_r in Hx. apply negb_false_iff, orderKey_zero in Hx.
  destruct (y <? x) eqn:H; [|done].
  apply ltb_orderKey in Hy as (a & b & Ha & Hb & Hab).
  apply ltb_orderKey in H as (b' & c & Hb' & Hc & Hbc).
  change (orderKey (Prim2SF 0)) with (Some (0, 0, 0)%Z) in Ha.
  simplify_eq. unfold lexLt in *. cbn [fst snd] in *. lia.
Qed.

End NumberOrder.

(** ** Further properties of the response executor *)

Module ResponseExtras.

Import NumberFacts NumberOrder ArrayFacts AutomatedResponseService ResponseSpec
  ResponseExamples ResponseVocabulary ResponseProofs.

Local Open Scope float_scope.

Lemma alter_same (f : IContent → IContent) (i : string) (m : gmap string IContent) :
  (∀ c, m !! i = Some c → f c = c) → alter f i m = m.
Proof.
  intros Hf. apply map_eq. intros j. rewrite lookup_alter.
  destruct (decide (i = j)) as [->|]; [|done].
  destruct (m !! j) as [c|] eqn:Hc; simpl; [|done]. by rewrite Hf.
Qed.

Lemma overwrite_empty (c : IContent) : overwrite ∅ false c = c.
Proof. destruct c. unfold overwrite. simpl. by rewrite (left_id_L ∅ (∪)). Qed.

Lemma overwrite_overwrite (M1 M2 : gmap string MetaValue) (b1 b2 : bool)
    (c : IContent) :
  overwrite M2 b2 (overwrite M1 b1 c) = overwrite (M2 ∪ M1) (b2 || b1) c.
Proof.
  unfold overwrite. simpl. by rewrite (assoc_L (∪)), orb_assoc.
Qed.

(** What a handler does to the collection: it rewrites one document. *)
Lemma executeAction_contents (this : Service) (contentId : string)
    (a : ResponseAction) (d : DetectionResult) (w : World) :
  contents (executeAction this contentId a d w)
  = alter (overwrite (metadataWrites this d (new_Date w) a)
                     (bool_decide (type a = Flag)))
          contentId (contents w).
Proof.
  unfold executeAction, metadataWrites.
  destruct (type a) eqn:Ht; simpl.
  - apply alter_ext. intros c _. unfold overwrite, set_metadata. simpl.
    by rewrite <- insert_union_l, (left_id_L ∅ (∪)).
  - unfold removeContent. destruct (lt _ _); simpl;
      apply alter_ext; intros c _; unfold overwrite, set_metadata; simpl;
      by rewrite <- !insert_union_l, (left_id_L ∅ (∪)); destruct c.
  - apply alter_ext. intros c _. unfold overwrite, set_metadata. simpl.
    by rewrite <- !insert_union_l, (left_id_L ∅ (∪)); destruct c.
  - unfold warnUser. destruct (contents w !! contentId) as [c0|] eqn:Hc; simpl.
    + apply alter_ext. intros c _. unfold overwrite, set_metadata. simpl.
      by rewrite <- !insert_union_l, (left_id_L ∅ (∪)); destruct c.
    + symmetry. apply alter_same. intros c Hc'. congruence.
  - apply alter_ext. intros c _. unfold overwrite, set_metadata. simpl.
    by rewrite <- !insert_union_l, (left_id_L ∅ (∪)); destruct c.
  - symmetry. apply alter_same. intros c _. apply overwrite_empty.
Qed.

Lemma executeAction_clock (this : Service) (contentId : string)
    (a : ResponseAction) (d : DetectionResult) (w : World) :
  clock (executeAction this contentId a d w) = clock w.
Proof.
  unfold executeAction, removeContent, warnUser.
  destruct (type a); try reflexivity.
  - by destruct (lt _ _).
  - by destruct (contents w !! contentId).
Qed.

Lemma executeAction_redisLists (this : Service) (contentId : string)
    (a : ResponseAction) (d : DetectionResult) (w : World) :
  redisLists (executeAction this contentId a d w) = redisLists w
  ∧ responseQueue (executeAction this contentId a d w) = responseQueue w.
Proof.
  unfold executeAction, removeContent, warnUser.
  destruct (type a); try done.
  - by destruct (lt _ _).
  - by destruct (contents w !! contentId).
Qed.

Lemma executeAction_escalationQueue (this : Service) (contentId : string)
    (a : ResponseAction) (d : DetectionResult) (w : World) :
  escalationQueue (executeAction this contentId a d w)
  = escalationQueue w ++ escalationJobs this contentId d [a].
Proof.
  unfold escalationJobs, escalates, executeAction, removeContent, warnUser.
  rewrite filter_cons, filter_nil.
  destruct (type a); simpl; rewrite ?app_nil_r; try done.
  - by destruct (lt _ _); simpl; rewrite ?app_nil_r.
  - by destruct (contents w !! contentId).
Qed.

(** The handlers of a list of actions, run in order. *)
Abbreviation executeAll this contentId d :=
  (foldl (fun w action => executeAction this contentId action d w)).

Lemma executeAll_clock (this : Service) (contentId : string) (d : DetectionResult)
    (actions : list ResponseAction) (w : World) :
  clock (executeAll this contentId d w actions) = clock w.
Proof.
  revert w. induction actions as [|a actions IH]; intros w; simpl; [done|].
  by rewrite IH, executeAction_clock.
Qed.

Lemma executeAll_redisLists (this : Service) (contentId : string)
    (d : DetectionResult) (actions : list ResponseAction) (w : World) :
  redisLists (executeAll this contentId d w actions) = redisLists w
  ∧ responseQueue (executeAll this contentId d w actions) = responseQueue w.
Proof.
  revert w. induction actions as [|a actions IH]; intros w; simpl; [done|].
  destruct (IH (executeAction this contentId a d w)) as [-> ->].
  apply executeAction_redisLists.
Qed.

Lemma executeAll_escalationQueue (this : Service) (contentId : string)
    (d : DetectionResult) (actions : list ResponseAction) (w : World) :
  escalationQueue (executeAll this contentId d w actions)
  = escalationQueue w ++ escalationJobs this contentId d actions.
Proof.
  revert w. induction actions as [|a actions IH]; intros w; simpl.
  - by rewrite app_nil_r.
  - rewrite IH, executeAction_escalationQueue, <- app_assoc. f_equal.
    unfold escalationJobs. rewrite <- fmap_app. f_equal.
    by rewrite (filter_app _ [a] actions).
Qed.

Lemma executeAll_contents_from (this : Service) (contentId : string)
    (d : DetectionResult) (actions : list ResponseAction) (w : World)
    (M : gmap string MetaValue) (b : bool) (m0 : gmap string IContent) :
  contents w = alter (overwrite M b) contentId m0 →
  contents (executeAll this contentId d w actions)
  = alter (overwrite
             (foldl (fun M a => metadataWrites this d (new_Date w) a ∪ M) M actions)
             (anyFlag actions || b))
          contentId m0.
Proof.
  revert w M b. induction actions as [|a actions IH]; intros w M b Hw; simpl; [done|].
  assert (Hdate : new_Date (executeAction this contentId a d w) = new_Date w).
  { unfold new_Date. by rewrite executeAction_clock. }
  rewrite (IH _ (metadataWrites this d (new_Date w) a ∪ M)
             (bool_decide (type a = Flag) || b)).
  - rewrite Hdate. f_equal. f_equal. by rewrite orb_assoc, (orb_comm (anyFlag _)).
  - rewrite executeAction_contents, Hw, alter_alter_eq.
    apply alter_ext. intros c _. simpl. apply overwrite_overwrite.
Qed.

(** A list of actions rewrites the document once, with all its writes. *)
Lemma executeAll_contents (this : Service) (contentId : string)
    (d : DetectionResult) (actions : list ResponseAction) (w : World) :
  contents (executeAll this contentId d w actions)
  = alter (overwrite (allWrites this d (new_Date w) actions) (anyFlag actions))
          contentId (contents w).
Proof.
  rewrite (executeAll_contents_from _ _ _ _ _ ∅ false (contents w)).
  - by rewrite orb_false_r.
  - symmetry. apply alter_same. intros c _. apply overwrite_empty.
Qed.

(** *** Removal at or above the threshold *)

(** X1. When the guard [score < threshold] of [removeContent] does not
    hold (the score is at least the threshold, or is NaN), a [remove]
    action marks the document removed by the automated system with the
    action's reason, leaves its escalation marker and the escalation queue
    as they were, and creates no document. *)
Theorem X1_remove_at_threshold_is_executed (this : Service) (contentId : string)
    (action : ResponseAction) (d : DetectionResult) (w : World) :
  type action = Remove →
  lt (harmfulnessScore d) (autoActionThreshold this) = false →
  let w' := executeAction this contentId action d w in
  (∀ c c', contents w !! contentId = Some c → contents w' !! contentId = Some c' →
     metadata c' !! "removed" = Some (MBool true)
     ∧ metadata c' !! "removeReason" = Some (MString (reason action))
     ∧ metadata c' !! "removedBy" = Some (MString "automated_system")
     ∧ metadata c' !! "removedAt" = Some (MDate (new_Date w))
     ∧ metadata c' !! "escalated" = metadata c !! "escalated")
  ∧ (contents w !! contentId = None → contents w' = contents w)
  ∧ (∀ other, other ≠ contentId → contents w' !! other = contents w !! other)
  ∧ escalationQueue w' = escalationQueue w
  ∧ logs w' = logs w ++ [mkLog LogWarn
                           [Str ("Content removed: " +:+ contentId +:+ " ("
                                 +:+ reason action +:+ ")")]].
Proof.
  intros Htype Hlt w'.
  assert (Hc : contents w'
               = alter (overwrite (metadataWrites this d (new_Date w) action) false)
                       contentId (contents w)).
  { unfold w'. rewrite executeAction_contents. by rewrite Htype. }
  assert (Hw : metadataWrites this d (new_Date w) action
               = <["removedBy" := MString "automated_system"]>
                   (<["removedAt" := MDate (new_Date w)]>
                      (<["removeReason" := MString (reason action)]>
                         (<["removed" := MBool true]> ∅)))).
  { unfold metadataWrites. by rewrite Htype, Hlt. }
  split; [|split; [|split; [|split]]].
  - intros c c' Hold. rewrite Hc, lookup_alter_eq, Hold. simpl. intros [= <-].
    unfold overwrite. simpl. rewrite Hw.
    rewrite <- !insert_union_l, (left_id_L ∅ (∪)).
    rewrite !lookup_insert_ne by done.
    repeat split;
      repeat (first [by rewrite lookup_insert_eq | rewrite lookup_insert_ne by done]);
      done.
  - intros Hnone. rewrite Hc. apply alter_same. congruence.
  - intros other Hne. rewrite Hc. by rewrite lookup_alter_ne.
  - unfold w'. rewrite executeAction_escalationQueue.
    unfold escalationJobs, escalates. rewrite filter_cons, filter_nil, Htype, Hlt.
    simpl. by rewrite app_nil_r.
  - unfold w', executeAction, removeContent. by rewrite Htype, Hlt.
Qed.

Lemma X1_witness :
  escalationQueue (executeAction c1_service "c1" c1_action
                     (mkDetectionResult 0.95 ["self_harm"] 0.9 "" true) c1_world)
  = escalationQueue c1_world.
Proof.
  exact (proj1 (proj2 (proj2 (proj2
           (X1_remove_at_threshold_is_executed c1_service "c1" c1_action
              (mkDetectionResult 0.95 ["self_harm"] 0.9 "" true) c1_world
              eq_refl eq_refl))))).
Defined.

(** *** A whole response pass *)

Lemma afterResponse_missing (this : Service) (job : QueueJob ProcessingJob) (w : World) :
  contents w !! contentId (jobData job) = None →
  processContentResponse this job w
  = (Thrown ("Content not found: " +:+ contentId (jobData job)),
     logger LogError
       [Str ("Failed to process content response for "
             +:+ contentId (jobData job) +:+ ":");
        Str ("Content not found: " +:+ contentId (jobData job))] w).
Proof. intros H. unfold processContentResponse. by rewrite H. Qed.

Lemma afterResponse_found (this : Service) (job : QueueJob ProcessingJob) (w : World)
    (content : IContent) :
  contents w !! contentId (jobData job) = Some content →
  processContentResponse this job w
  = (Returned,
     logResponseActions (contentId (jobData job))
       (actionsFor this (detectionResult (jobData job)) content)
       (detectionResult (jobData job))
       (executeAll this (contentId (jobData job)) (detectionResult (jobData job)) w
          (actionsFor this (detectionResult (jobData job)) content))).
Proof. intros H. unfold processContentResponse. by rewrite H. Qed.

Lemma afterResponse_contents (this : Service) (job : QueueJob ProcessingJob)
    (w : World) :
  contents (afterResponse this job w)
  = match contents w !! contentId (jobData job) with
    | Some content =>
        let actions := actionsFor this (detectionResult (jobData job)) content in
        alter (overwrite (allWrites this (detectionResult (jobData job))
                            (new_Date w) actions)
                         (anyFlag actions))
              (contentId (jobData job)) (contents w)
    | None => contents w
    end.
Proof.
  unfold afterResponse.
  destruct (contents w !! contentId (jobData job)) as [content|] eqn:Hc.
  - rewrite (afterResponse_found _ _ _ _ Hc). simpl. apply executeAll_contents.
  - by rewrite (afterResponse_missing _ _ _ Hc).
Qed.

(** X2. A response pass neither creates nor deletes a document, touches
    no document but the one of its job, and never changes a document's
    platform or engagement counters: it only writes metadata and raises
    the analysis flag. *)
Theorem X2_response_pass_keeps_documents (this : Service)
    (job : QueueJob ProcessingJob) (w : World) :
  let w' := afterResponse this job w in
  dom (contents w') = dom (contents w)
  ∧ identity <$> contents w' = identity <$> contents w
  ∧ (∀ other, other ≠ contentId (jobData job) →
       contents w' !! other = contents w !! other)
  ∧ (∀ c c', contents w !! contentId (jobData job) = Some c →
       contents w' !! contentId (jobData job) = Some c' →
       (analysisResults_flagged c = true → analysisResults_flagged c' = true)
       ∧ dom (metadata c) ⊆ dom (metadata c')).
Proof.
  intros w'. unfold w'. rewrite afterResponse_contents.
  destruct (contents w !! contentId (jobData job)) as [content|] eqn:Hc.
  - cbv zeta. split; [|split; [|split]].
    + apply set_eq. intros k. rewrite !elem_of_dom, lookup_alter.
      destruct (decide (contentId (jobData job) = k)) as [<-|]; [|done].
      rewrite Hc. simpl. split; intros _; eauto.
    + apply map_eq. intros k. rewrite !lookup_fmap, lookup_alter.
      destruct (decide (contentId (jobData job) = k)) as [<-|]; [|done].
      by rewrite Hc.
    + intros other Hne. by rewrite lookup_alter_ne.
    + intros c c' [= <-]. rewrite lookup_alter_eq, Hc. simpl. intros [= <-].
      unfold overwrite. simpl. split.
      * intros ->. apply orb_true_r.
      * rewrite dom_union_L. set_solver.
  - repeat split; done.
Qed.

(** X3. A job for a document that is not in the collection throws
    [Content not found: <id>] after logging the failure, and changes
    neither the collection, nor a queue, nor a Redis list. *)
Theorem X3_missing_content_is_rejected (this : Service)
    (job : QueueJob ProcessingJob) (w : World) :
  contents w !! contentId (jobData job) = None →
  let w' := afterResponse this job w in
  fst (processContentResponse this job w)
  = Thrown ("Content not found: " +:+ contentId (jobData job))
  ∧ contents w' = contents w
  ∧ responseQueue w' = responseQueue w
  ∧ escalationQueue w' = escalationQueue w
  ∧ redisLists w' = redisLists w
  ∧ logs w'
    = logs w ++ [mkLog LogError
                   [Str ("Failed to process content response for "
                         +:+ contentId (jobData job) +:+ ":");
                    Str ("Content not found: " +:+ contentId (jobData job))]].
Proof.
  intros Hc w'. unfold w', afterResponse.
  by rewrite (afterResponse_missing _ _ _ Hc).
Qed.

Lemma X3_witness :
  fst (processContentResponse defaultService
         (mkJob "handle-content" (mkProcessingJob "c2" c1_detection Critical) None None)
         c1_world)
  = Thrown "Content not found: c2".
Proof.
  exact (proj1 (X3_missing_content_is_rejected defaultService
                  (mkJob "handle-content" (mkProcessingJob "c2" c1_detection Critical)
                         None None)
                  c1_world eq_refl)).
Defined.

(** X4. A job for a stored document returns, pushes exactly one entry
    on the [response_log] list, naming the document, the consolidated
    actions in execution order and the detection's score, categories and
    confidence, and leaves every other Redis list and the response queue
    as they were. *)
Theorem X4_response_pass_logs_once (this : Service) (job : QueueJob ProcessingJob)
    (w : World) (content : IContent) :
  contents w !! contentId (jobData job) = Some content →
  let d := detectionResult (jobData job) in
  let w' := afterResponse this job w in
  let entry :=
    ResponseLogEntry (contentId (jobData job))
      ((fun a => (type a, severity a, reason a)) <$> actionsFor this d content)
      (harmfulnessScore d) (categories d) (confidence d) (new_Date w) in
  fst (processContentResponse this job w) = Returned
  ∧ redisLists w' !! "response_log"
    = Some (entry :: default [] (redisLists w !! "response_log"))
  ∧ (∀ key, key ≠ "response_log" → redisLists w' !! key = redisLists w !! key)
  ∧ responseQueue w' = responseQueue w.
Proof.
  intros Hc d w' entry. unfold w', afterResponse, entry, d.
  rewrite (afterResponse_found _ _ _ _ Hc). simpl.
  unfold new_Date at 1. rewrite executeAll_clock.
  destruct (executeAll_redisLists this (contentId (jobData job))
              (detectionResult (jobData job))
              (actionsFor this (detectionResult (jobData job)) content) w)
    as [-> ->].
  split; [done|]. split; [by rewrite lookup_insert_eq|]. split; [|done].
  intros key Hne. by rewrite lookup_insert_ne.
Qed.

Lemma X4_witness :
  fst (processContentResponse defaultService
         (mkJob "handle-content" (mkProcessingJob "c1" c1_detection Critical) None None)
         c1_world)
  = Returned.
Proof.
  exact (proj1 (X4_response_pass_logs_once defaultService
                  (mkJob "handle-content" (mkProcessingJob "c1" c1_detection Critical)
                         None None)
                  c1_world _ eq_refl)).
Defined.

(** X5. What a pass puts on the escalation queue: one [escalate-content]
    job for every consolidated action that is an escalation, or a removal
    the threshold turns into one, in execution order and behind the jobs
    already waiting, each with the action's derived priority. *)
Theorem X5_response_pass_escalations (this : Service) (job : QueueJob ProcessingJob)
    (w : World) (content : IContent) :
  contents w !! contentId (jobData job) = Some content →
  let d := detectionResult (jobData job) in
  let actions := actionsFor this d content in
  escalationQueue (afterResponse this job w)
  = escalationQueue w
    ++ ((fun a => mkJob "escalate-content"
                        (mkEscalationJob (contentId (jobData job)) a d)
                        (Some (getActionPriority a)) None)
          <$> filter (fun a => type a = Escalate
                               ∨ (type a = Remove
                                  ∧ lt (harmfulnessScore d) (autoActionThreshold this)
                                    = true))
                     actions).
Proof.
  intros Hc d actions. unfold afterResponse.
  rewrite (afterResponse_found _ _ _ _ Hc). simpl.
  rewrite executeAll_escalationQueue. f_equal. unfold escalationJobs. f_equal.
  apply list_filter_iff. intros a. unfold escalates.
  destruct (type a); intuition congruence.
Qed.

Lemma X5_witness :
  escalationQueue_types
    (afterResponse defaultService
       (mkJob "handle-content" (mkProcessingJob "c1" c1_detection Critical) None None)
       c1_world)
  = [Remove; Escalate].
Proof.
  unfold escalationQueue_types.
  rewrite (X5_response_pass_escalations defaultService
             (mkJob "handle-content" (mkProcessingJob "c1" c1_detection Critical)
                    None None)
             c1_world _ eq_refl).
  vm_compute. reflexivity.
Defined.

(** *** The markers of the actions taken *)

Ltac lookup_writes :=
  repeat first [rewrite lookup_insert_eq | rewrite lookup_insert_ne by done
               | rewrite lookup_empty].

Lemma metadataWrites_marker (this : Service) (d : DetectionResult) (t : Date)
    (a : ResponseAction) (key : string) :
  marker this d a = Some key → metadataWrites this d t a !! key = Some (MBool true).
Proof.
  unfold marker, metadataWrites.
  destruct (type a); [| destruct (lt _ _) | | | |]; intros [= <-];
    by lookup_writes.
Qed.

Lemma metadataWrites_marker_kept (this : Service) (d : DetectionResult) (t : Date)
    (a b : ResponseAction) (key : string) :
  marker this d a = Some key →
  metadataWrites this d t b !! key = None
  ∨ metadataWrites this d t b !! key = Some (MBool true).
Proof.
  unfold marker, metadataWrites.
  destruct (lt _ _), (type a); intros [= <-];
    destruct (type b); lookup_writes; auto.
Qed.

Lemma allWrites_marker_from (this : Service) (d : DetectionResult) (t : Date)
    (actions : list ResponseAction) (M : gmap string MetaValue)
    (a : ResponseAction) (key : string) :
  marker this d a = Some key →
  a ∈ actions ∨ M !! key = Some (MBool true) →
  foldl (fun M a => metadataWrites this d t a ∪ M) M actions !! key
  = Some (MBool true).
Proof.
  intros Hkey. revert M.
  induction actions as [|b actions IH]; intros M [Hin|HM]; simpl.
  - by apply elem_of_nil in Hin.
  - done.
  - apply elem_of_cons in Hin as [->|Hin]; apply IH; [right|by left].
    apply lookup_union_Some_l. by apply metadataWrites_marker.
  - apply IH. right.
    destruct (metadataWrites_marker_kept this d t a b key Hkey) as [H|H].
    + by rewrite lookup_union_r.
    + by apply lookup_union_Some_l.
Qed.

(** X6. After a pass every action taken has left its marker on the
    document, whatever the other actions wrote: [removed] for an executed
    removal, [escalated] for an escalation and for a removal below the
    threshold, [userWarned] for a warning, [quarantined] for a quarantine;
    and the analysis flag is raised when a flag action was taken. *)
Theorem X6_actions_leave_their_marker (this : Service)
    (job : QueueJob ProcessingJob) (w : World) (content : IContent) :
  contents w !! contentId (jobData job) = Some content →
  let d := detectionResult (jobData job) in
  ∃ c', contents (afterResponse this job w) !! contentId (jobData job) = Some c'
        ∧ (∀ a key, a ∈ actionsFor this d content → marker this d a = Some key →
             metadata c' !! key = Some (MBool true))
        ∧ (∀ a, a ∈ actionsFor this d content → type a = Flag →
             analysisResults_flagged c' = true).
Proof.
  intros Hc d. rewrite afterResponse_contents, Hc. cbv zeta.
  rewrite lookup_alter_eq, Hc. eexists. split; [reflexivity|]. split.
  - intros a key Ha Hkey. unfold overwrite. cbn [metadata].
    apply lookup_union_Some_l. unfold allWrites.
    apply (allWrites_marker_from this _ _ _ ∅ a); [done|by left].
  - intros a Ha Hflag. unfold overwrite. cbn [analysisResults_flagged].
    apply orb_true_iff. left. apply existsb_exists. exists a.
    split; [by apply list_elem_of_In|]. by apply bool_decide_eq_true.
Qed.

Lemma X6_witness :
  ∃ c', contents (afterResponse defaultService
                    (mkJob "handle-content"
                       (mkProcessingJob "c1"
                          (mkDetectionResult 0.97 ["self_harm"] 0.9 "" true) Critical)
                       None None)
                    c1_world) !! "c1" = Some c'
        ∧ metadata c' !! "removed" = Some (MBool true)
        ∧ metadata c' !! "escalated" = Some (MBool true).
Proof.
  destruct (X6_actions_leave_their_marker defaultService
              (mkJob "handle-content"
                 (mkProcessingJob "c1"
                    (mkDetectionResult 0.97 ["self_harm"] 0.9 "" true) Critical)
                 None None)
              c1_world _ eq_refl) as (c' & Hc' & Hmarks & _).
  exists c'. split; [exact Hc'|]. split.
  - apply (Hmarks (mkAction Remove Critical true "Self-harm content detected"));
      [vm_compute; apply list_elem_of_here | reflexivity].
  - apply (Hmarks (mkAction Escalate Medium true
                     "Low confidence high harm - needs human review"));
      [vm_compute; apply list_elem_of_further, list_elem_of_here | reflexivity].
Defined.

(** *** Running a job again *)

Lemma ruleApplies_identity (d : DetectionResult) (c c' : IContent)
    (rule : EscalationRule) :
  identity c = identity c' → ruleApplies d c rule = ruleApplies d c' rule.
Proof.
  destruct c, c'. unfold identity. simpl. intros [= -> ->]. reflexivity.
Qed.

Lemma actionsFor_identity (this : Service) (d : DetectionResult) (c c' : IContent) :
  identity c = identity c' → actionsFor this d c = actionsFor this d c'.
Proof.
  intros H. unfold actionsFor, findApplicableRules. do 2 f_equal.
  apply list_filter_iff. intros rule. by rewrite (ruleApplies_identity d c c').
Qed.

Lemma dom_metadataWrites (this : Service) (d : DetectionResult) (t t' : Date)
    (a : ResponseAction) :
  dom (metadataWrites this d t a) = dom (metadataWrites this d t' a).
Proof.
  unfold metadataWrites.
  destruct (type a); [| destruct (lt _ _) | | | |];
    by rewrite ?dom_insert_L, ?dom_empty_L.
Qed.

Lemma dom_allWrites_from (this : Service) (d : DetectionResult) (t t' : Date)
    (actions : list ResponseAction) (M M' : gmap string MetaValue) :
  dom M = dom M' →
  dom (foldl (fun M a => metadataWrites this d t a ∪ M) M actions)
  = dom (foldl (fun M a => metadataWrites this d t' a ∪ M) M' actions).
Proof.
  revert M M'. induction actions as [|a actions IH]; intros M M' H; simpl; [done|].
  apply IH. by rewrite !dom_union_L, H, (dom_metadataWrites this d t t').
Qed.

Lemma union_covered (M1 M2 : gmap string MetaValue) :
  dom M1 ⊆ dom M2 → M2 ∪ M1 = M2.
Proof.
  intros H. apply map_eq. intros k. rewrite lookup_union.
  destruct (M2 !! k) as [v|] eqn:H2; [by destruct (M1 !! k)|].
  assert (M1 !! k = None) as ->; [|done].
  apply not_elem_of_dom. apply not_elem_of_dom in H2. set_solver.
Qed.

(** X7. Running the same job a second time, at any clock value,
    leaves the collection exactly as a single run at that time would:
    the second pass selects the same actions (the rule engine reads only
    platform and engagement, which a pass never changes) and rewrites the
    same metadata keys, so nothing of the first pass survives but what the
    second writes again. *)
Theorem X7_second_pass_overwrites_first (this : Service)
    (job : QueueJob ProcessingJob) (w : World) (t : Z) :
  contents (afterResponse this job (setClock t (afterResponse this job w)))
  = contents (afterResponse this job (setClock t w)).
Proof.
  rewrite (afterResponse_contents this job (setClock t (afterResponse this job w))).
  rewrite (afterResponse_contents this job (setClock t w)).
  cbn [setClock contents]. rewrite (afterResponse_contents this job w).
  destruct (contents w !! contentId (jobData job)) as [content|] eqn:Hc.
  - cbv zeta. rewrite lookup_alter_eq, Hc. cbn [fmap option_fmap option_map].
    rewrite alter_alter_eq.
    rewrite <- (actionsFor_identity this (detectionResult (jobData job)) content)
      by reflexivity.
    apply alter_ext. intros c _. cbn [compose].
    rewrite overwrite_overwrite, orb_diag. f_equal.
    apply union_covered. apply reflexive_eq.
    by apply (dom_allWrites_from this _ _ _ _ ∅ ∅).
  - by rewrite Hc.
Qed.

(** *** The escalation processor *)

Lemma lane_inj (l l' : Level) : lane l = lane l' → l = l'.
Proof. destruct l, l'; intros H; try reflexivity; cbv in H; discriminate H. Qed.

(** X8. An escalation job is filed on the Redis list of its action's
    severity, in front of what the list held, with the detection and the
    time of filing; the lists of the other severities, the response log,
    the collection and both queues are not touched. *)
Theorem X8_escalation_is_filed_by_severity (job : QueueJob EscalationJob) (w : World) :
  let w' := processEscalation job w in
  let e := jobData job in
  redisLists w' !! lane (severity (esc_action e))
  = Some (EscalationData (esc_contentId e) (esc_action e) (esc_detectionResult e)
                         (new_Date w) (severity (esc_action e))
            :: default [] (redisLists w !! lane (severity (esc_action e))))
  ∧ (∀ l, l ≠ severity (esc_action e) →
       redisLists w' !! lane l = redisLists w !! lane l)
  ∧ redisLists w' !! "response_log" = redisLists w !! "response_log"
  ∧ contents w' = contents w
  ∧ responseQueue w' = responseQueue w
  ∧ escalationQueue w' = escalationQueue w.
Proof.
  intros w' e. unfold w', processEscalation, handleEscalation. simpl.
  fold (lane (severity (esc_action e))).
  split; [by rewrite lookup_insert_eq|]. split; [|split; [|done]].
  - intros l Hl. rewrite lookup_insert_ne; [done|].
    intros H. by apply lane_inj in H.
  - rewrite lookup_insert_ne; [done|].
    destruct (severity (esc_action e)); intros H; cbv in H; discriminate H.
Qed.

(** *** Urgency and queue order *)

(** X9. Between two detections with the same categories the one with
    the higher score is never given the lower urgency, and the job
    [processContent] queues for it never has the larger priority number
    (Bull serves the smaller number first) nor the longer delay. *)
Theorem X9_urgency_grows_with_score (d1 d2 : DetectionResult) (id1 id2 : string)
    (w1 w2 : World) :
  categories d1 = categories d2 →
  le (harmfulnessScore d1) (harmfulnessScore d2) = true →
  let j1 := last (responseQueue (processContent id1 d1 w1)) in
  let j2 := last (responseQueue (processContent id2 d2 w2)) in
  (urgencyRank (determineUrgency d1) ≤ urgencyRank (determineUrgency d2))%Z
  ∧ ∃ p1 p2 t1 t2,
      jobPriority <$> j1 = Some (Some p1) ∧ jobPriority <$> j2 = Some (Some p2)
      ∧ le p2 p1 = true
      ∧ jobDelay <$> j1 = Some (Some t1) ∧ jobDelay <$> j2 = Some (Some t2)
      ∧ le t2 t1 = true.
Proof.
  intros Hc Hle j1 j2.
  assert (Hrank : (urgencyRank (determineUrgency d1)
                   ≤ urgencyRank (determineUrgency d2))%Z).
  { unfold determineUrgency. rewrite Hc.
    destruct (existsb _ (categories d2)).
    - by rewrite !orb_true_r.
    - rewrite !orb_false_r.
      assert (mono : ∀ k, ge (harmfulnessScore d1) k = true →
                          ge (harmfulnessScore d2) k = true).
      { intros k Hk. unfold ge in *. by eapply leb_trans. }
      destruct (ge (harmfulnessScore d1) 0.95) eqn:E1.
      { by rewrite (mono _ E1). }
      destruct (ge (harmfulnessScore d1) 0.85) eqn:E2.
      { pose proof (mono _ E2) as E2'. rewrite E2'.
        by destruct (ge (harmfulnessScore d2) 0.95). }
      destruct (ge (harmfulnessScore d1) 0.7) eqn:E3.
      { pose proof (mono _ E3) as E3'. rewrite E3'.
        by destruct (ge (harmfulnessScore d2) 0.95), (ge (harmfulnessScore d2) 0.85). }
      by destruct (ge (harmfulnessScore d2) 0.95), (ge (harmfulnessScore d2) 0.85),
           (ge (harmfulnessScore d2) 0.7). }
  split; [done|].
  unfold j1, j2, processContent. cbn [responseQueue logger responseQueue_add].
  rewrite !last_snoc. cbn [fmap option_fmap option_map jobPriority jobDelay].
  eexists _, _, _, _. repeat split.
  - by destruct (determineUrgency d1), (determineUrgency d2).
  - by destruct (determineUrgency d1), (determineUrgency d2).
Qed.

Lemma X9_witness :
  Z.le (urgencyRank (determineUrgency (mkDetectionResult 0.5 ["spam"] 0.9 "" false)))
       (urgencyRank (determineUrgency (mkDetectionResult 0.9 ["spam"] 0.9 "" true))).
Proof.
  exact (proj1 (X9_urgency_grows_with_score
                  (mkDetectionResult 0.5 ["spam"] 0.9 "" false)
                  (mkDetectionResult 0.9 ["spam"] 0.9 "" true) "a" "b"
                  c1_world c1_world eq_refl eq_refl)).
Defined.

(** *** The virality test *)

(** X10. The virality test holds exactly when the engagement total is
    above 1000, or the shares are above 100, or the views are present and
    above 10000: a view count that is zero or NaN, which the guard
    [views && ...] stops at, is in no case above 10000. *)
Theorem X10_virality_is_the_plain_disjunction (content : IContent) :
  let e := engagement content in
  Viral_truthy (checkViralityIndicators content)
  = gt (likes e + shares e + comments e) 1000
    || gt (shares e) 100
    || match views e with
       | Some v => gt v 10000
       | None => false
       end.
Proof.
  intros e. unfold checkViralityIndicators. fold e.
  destruct (gt (likes e + shares e + comments e) 1000); [done|].
  destruct (gt (shares e) 100); [done|].
  destruct (views e) as [v|]; [|done].
  destruct (truthy v) eqn:Hv; [done|].
  simpl. rewrite Hv. symmetry. unfold gt. by apply falsy_not_above.
Qed.

(** *** Rule selection *)

Lemma filter_agree {A} (P Q : A → Prop) `{∀ x, Decision (P x)} `{∀ x, Decision (Q x)}
    (l : list A) :
  (∀ x, x ∈ l → P x ↔ Q x) → filter P l = filter Q l.
Proof.
  induction l as [|x l IH]; intros HPQ; [done|].
  rewrite !filter_cons. rewrite IH by (intros y Hy; apply HPQ; by right).
  destruct (decide (P x)) as [HP|HP], (decide (Q x)) as [HQ|HQ]; try done.
  - destruct HQ. apply HPQ; [by left|done].
  - destruct HP. apply HPQ; [by left|done].
Qed.

(** X11. When score and confidence are numbers and no bound of a rule is
    zero or NaN, the filter selects exactly the enabled rules all of whose
    present conditions hold, each once per occurrence in the rule set. *)
Theorem X11_selection_by_conditions (rules : list EscalationRule)
    (d : DetectionResult) (content : IContent) :
  is_nan (harmfulnessScore d) = false →
  is_nan (confidence d) = false →
  (∀ rule, rule ∈ rules → plainBounds (conditions rule)) →
  findApplicableRules rules d content
  ≡ₚ filter (fun rule => enabled rule = true
                         ∧ conditionsHold d content (conditions rule) = true) rules.
Proof.
  intros Hs Hc Hplain. unfold findApplicableRules. rewrite Array_sort_perm.
  apply reflexive_eq, filter_agree. intros rule Hrule.
  rewrite (ruleApplies_selectedBySpec d content rule Hs Hc (Hplain rule Hrule)).
  unfold selectedBySpec. by rewrite andb_true_iff.
Qed.

Lemma X11_witness :
  findApplicableRules (take 4 getDefaultEscalationRules) c1_detection
    (mkContent "tiktok" (mkEngagement 10 2 3 None) true ∅)
  ≡ₚ take 1 getDefaultEscalationRules.
Proof.
  rewrite (X11_selection_by_conditions (take 4 getDefaultEscalationRules) c1_detection
             (mkContent "tiktok" (mkEngagement 10 2 3 None) true ∅)
             eq_refl eq_refl).
  - reflexivity.
  - intros rule Hrule. cbn [take getDefaultEscalationRules] in Hrule.
    repeat (apply elem_of_cons in Hrule as [->|Hrule]);
      [| | | | by apply elem_of_nil in Hrule];
      (split; [|split]); intros; do 2 (cbn in *; simplify_eq); reflexivity.
Defined.

(** *** Consolidation *)

Lemma consolidateActions_elem (a : ResponseAction) (rules : list EscalationRule) :
  a ∈ consolidateActions rules
  ↔ a ∈ firstOccurrences [] (concat (actions <$> rules)).
Proof. by rewrite consolidateActions_firstOccurrences, elem_of_Array_sort. Qed.

Lemma consolidateActions_NoDup (rules : list EscalationRule) :
  NoDup (pairOf <$> consolidateActions rules).
Proof.
  rewrite consolidateActions_firstOccurrences, Array_sort_perm.
  pose proof (firstOccurrences_NoDup [] (concat (actions <$> rules))) as Hk.
  induction (firstOccurrences [] (concat (actions <$> rules))) as [|a l IH]; simpl.
  - constructor.
  - rewrite fmap_cons in Hk. apply NoDup_cons in Hk as [Ha Hl].
    apply NoDup_cons. split; [|by apply IH].
    intros Hin. apply Ha. apply list_elem_of_fmap in Hin as (b & Hab & Hb).
    apply list_elem_of_fmap. exists b. split; [|done]. by apply actionKey_inj.
Qed.

(** X12. Consolidation never reads a rule's priority: for every pair of
    type and severity it keeps the action of the first rule, in the order
    of the list it is given, that has one, and two rule lists whose
    actions read the same in sequence consolidate to the same actions. *)
Theorem X12_consolidation_follows_list_order (rules : list EscalationRule) :
  (∀ a, a ∈ consolidateActions rules →
     ∃ rs1 r rs2, rules = rs1 ++ r :: rs2 ∧ a ∈ actions r
                  ∧ ∀ r', r' ∈ rs1 → ¬ contributes r' (pairOf a))
  ∧ (∀ rules', concat (actions <$> rules') = concat (actions <$> rules) →
       consolidateActions rules' = consolidateActions rules).
Proof.
  split.
  - intros a Ha. apply consolidateActions_elem in Ha.
    apply firstOccurrences_rule in Ha as (rs1 & r & rs2 & -> & Har & Hfirst).
    exists rs1, r, rs2. repeat split; [done|].
    intros r' Hr' (a' & Ha' & Hp). apply (Hfirst r' a' Hr' Ha').
    by apply actionKey_inj.
  - intros rules' H. by rewrite !consolidateActions_firstOccurrences, H.
Qed.

Lemma elem_of_allPairs (p : ActionType * Level) : p ∈ allPairs.
Proof.
  destruct p as [t s]. apply list_elem_of_In.
  destruct t, s; cbv; repeat (first [left; reflexivity | right]).
Qed.

(** X13. However many rules apply, a pass executes at most one action
    for each of the 24 pairs of type and severity, and never more actions
    than the rules list. *)
Theorem X13_consolidation_is_bounded (rules : list EscalationRule) :
  (length (consolidateActions rules) ≤ 24)%nat
  ∧ (length (consolidateActions rules) ≤ length (concat (actions <$> rules)))%nat.
Proof.
  split.
  - rewrite <- (length_fmap pairOf).
    change 24%nat with (length allPairs).
    apply submseteq_length, NoDup_submseteq; [apply consolidateActions_NoDup|].
    intros p _. apply elem_of_allPairs.
  - rewrite consolidateActions_firstOccurrences, Array_sort_perm.
    generalize (@nil string).
    induction (concat (actions <$> rules)) as [|a l IH]; intros seen; simpl; [done|].
    case_bool_decide; simpl; [specialize (IH seen)|specialize (IH (seen ++ [actionKey a]))];
      lia.
Qed.

(** *** The default rule set *)

Lemma lt_below (s a b : number) : lt s a = true → le a b = true → lt s b = true.
Proof. unfold lt, le. apply ltb_leb_trans. Qed.

Lemma defaults_below (d : DetectionResult) (content : IContent) :
  lt (harmfulnessScore d) 0.6 = true →
  findApplicableRules getDefaultEscalationRules d content = [].
Proof.
  intros H.
  assert (H8 := lt_below _ _ 0.8 H eq_refl).
  assert (H75 := lt_below _ _ 0.75 H eq_refl).
  assert (H7 := lt_below _ _ 0.7 H eq_refl).
  unfold findApplicableRules, getDefaultEscalationRules.
  rewrite !filter_cons, filter_nil. unfold ruleApplies.
  cbn [enabled conditions cond_harmfulnessScore min max negb].
  rewrite H, H8, H75, H7. reflexivity.
Qed.

(** X14. The default rules select nothing for a score below 0.6,
    whatever the categories, the platform and the engagement: a pass of
    the default service then changes neither the collection nor the
    escalation queue. *)
Theorem X14_default_rules_ignore_low_scores (job : QueueJob ProcessingJob)
    (w : World) (content : IContent) :
  lt (harmfulnessScore (detectionResult (jobData job))) 0.6 = true →
  findApplicableRules getDefaultEscalationRules (detectionResult (jobData job)) content
  = []
  ∧ contents (afterResponse defaultService job w) = contents w
  ∧ escalationQueue (afterResponse defaultService job w) = escalationQueue w.
Proof.
  intros H. split; [by apply defaults_below|].
  assert (Hnone : ∀ c, actionsFor defaultService (detectionResult (jobData job)) c = []).
  { intros c. unfold actionsFor. simpl. by rewrite defaults_below. }
  split.
  - rewrite afterResponse_contents.
    destruct (contents w !! contentId (jobData job)) as [c|] eqn:Hc; [|done].
    cbv zeta. rewrite Hnone. apply alter_same. intros c' _. apply overwrite_empty.
  - unfold afterResponse.
    destruct (contents w !! contentId (jobData job)) as [c|] eqn:Hc.
    + rewrite (afterResponse_found _ _ _ _ Hc). simpl.
      rewrite executeAll_escalationQueue, Hnone. apply app_nil_r.
    + by rewrite (afterResponse_missing _ _ _ Hc).
Qed.

Lemma X14_witness :
  contents (afterResponse defaultService
              (mkJob "handle-content"
                     (mkProcessingJob "c1" (mkDetectionResult 0.5 ["self_harm"] 0.9 "" true)
                                      Critical) None None)
              c1_world)
  = contents c1_world.
Proof.
  exact (proj1 (proj2 (X14_default_rules_ignore_low_scores
                  (mkJob "handle-content"
                     (mkProcessingJob "c1" (mkDetectionResult 0.5 ["self_harm"] 0.9 "" true)
                                      Critical) None None)
                  c1_world (mkContent "tiktok" (mkEngagement 10 2 3 None) true ∅)
                  eq_refl))).
Defined.

Lemma rule_of_defaults (P : EscalationRule → Prop) :
  Forall P getDefaultEscalationRules → ∀ rule, rule ∈ getDefaultEscalationRules → P rule.
Proof. intros H rule Hrule. by eapply Forall_forall in H. Qed.

(** X15. The default rule [low_confidence_high_harm] bounds the
    confidence by [min: 0.0], which the filter does not read as a bound:
    every detection whose score is not below 0.8 (NaN included) is
    escalated for human review at medium severity, whatever its confidence,
    its categories, the platform and the engagement. *)
Theorem X15_high_scores_are_always_escalated (d : DetectionResult)
    (content : IContent) :
  lt (harmfulnessScore d) 0.8 = false →
  mkAction Escalate Medium true "Low confidence high harm - needs human review"
  ∈ actionsFor defaultService d content.
Proof.
  intros H.
  set (a := mkAction Escalate Medium true
              "Low confidence high harm - needs human review").
  set (selected := findApplicableRules getDefaultEscalationRules d content).
  assert (Hflat : a ∈ concat (actions <$> selected)).
  { apply elem_of_flattened.
    exists (mkRule "low_confidence_high_harm" "Low Confidence High Harm Score"
              (mkConditions (Some (mkRange (Some 0.8) None)) None None
                            (Some (Some 0.0)) None)
              [a] 60 true).
    split; [|by left].
    apply findApplicableRules_elem. split.
    - unfold getDefaultEscalationRules. do 4 right. left.
    - unfold ruleApplies.
      cbn [enabled conditions cond_harmfulnessScore cond_confidence min max negb].
      by rewrite H. }
  apply (firstOccurrences_covers a []) in Hflat. simpl in Hflat.
  apply list_elem_of_fmap in Hflat as (a' & Hkey & Ha').
  unfold actionsFor. simpl. apply consolidateActions_elem. fold selected.
  replace a with a'; [done|].
  apply firstOccurrences_elem in Ha' as [Ha' _].
  apply elem_of_flattened in Ha' as (rule & Hrule & Ha').
  apply findApplicableRules_elem in Hrule as [Hrule _].
  symmetry in Hkey. apply actionKey_inj in Hkey.
  revert rule Hrule a' Ha' Hkey.
  refine (rule_of_defaults
            (fun rule => ∀ a', a' ∈ actions rule → pairOf a' = pairOf a → a' = a) _).
  repeat (apply Forall_cons; split); [..|by apply Forall_nil];
    intros a' Ha'; cbn [actions] in Ha';
    repeat (apply elem_of_cons in Ha' as [->|Ha']);
    try (by apply elem_of_nil in Ha');
    intros Hp; cbv in Hp; try discriminate Hp; reflexivity.
Qed.

Lemma X15_witness :
  mkAction Escalate Medium true "Low confidence high harm - needs human review"
  ∈ actionsFor defaultService (mkDetectionResult 0.97 ["self_harm"] 0.99 "" true)
      (mkContent "tiktok" (mkEngagement 10 2 3 None) true ∅).
Proof.
  exact (X15_high_scores_are_always_escalated
           (mkDetectionResult 0.97 ["self_harm"] 0.99 "" true)
           (mkContent "tiktok" (mkEngagement 10 2 3 None) true ∅) eq_refl).
Defined.

(** X16. A score that is NaN is on no side of any bound: the filter
    treats a rule as if it had no score range, and [removeContent] takes
    the score as not below the threshold. *)
Theorem X16_nan_score_passes_every_bound (this : Service) (d : DetectionResult)
    (content : IContent) (rule : EscalationRule) :
  is_nan (harmfulnessScore d) = true →
  ruleApplies d content rule = ruleApplies d content (withoutScoreBounds rule)
  ∧ lt (harmfulnessScore d) (autoActionThreshold this) = false.
Proof.
  intros Hnan. split; [|by apply ltb_nan_l].
  unfold ruleApplies, withoutScoreBounds.
  cbn [enabled conditions cond_harmfulnessScore cond_confidence cond_categories
       cond_platforms cond_viralityIndicators].
  destruct (cond_harmfulnessScore (conditions rule)) as [[[m|] [m'|]]|];
    cbn [min max]; unfold lt, gt;
    rewrite ?(ltb_nan_l _ _ Hnan), ?(ltb_nan_r _ _ Hnan), ?andb_false_r;
    reflexivity.
Qed.

Lemma X16_witness :
  ruleApplies (mkDetectionResult nan ["self_harm"] 0.9 "" true)
    (mkContent "tiktok" (mkEngagement 10 2 3 None) true ∅)
    (mkRule "critical_self_harm" "Critical Self-Harm Content"
       (mkConditions (Some (mkRange (Some 0.8) None)) (Some ["self_harm"])
                     None None None)
       [ mkAction Remove Critical true "Self-harm content detected";
         mkAction Notify Critical true "Mental health crisis alert" ]
       100 true)
  = true.
Proof.
  rewrite (proj1 (X16_nan_score_passes_every_bound defaultService
                    (mkDetectionResult nan ["self_harm"] 0.9 "" true)
                    (mkContent "tiktok" (mkEngagement 10 2 3 None) true ∅)
                    _ eq_refl)).
  reflexivity.
Defined.

(** *** What the filter never does *)

Lemma filter_submseteq {A} (P : A → Prop) `{∀ x, Decision (P x)} (l : list A) :
  filter P l ⊆+ l.
Proof.
  induction l as [|x l IH]; [done|]. rewrite filter_cons.
  destruct (decide (P x)); [by apply submseteq_skip|by apply submseteq_cons].
Qed.

(** X17. The filter invents and repeats nothing: what it returns is,
    up to order, a sub-list of the rule set; it never returns a disabled
    rule; it always returns an enabled rule that states no condition; and
    the rules it selects do not depend on the order of the rule set. *)
Theorem X17_selection_frame (rules : list EscalationRule) (d : DetectionResult)
    (content : IContent) :
  let out := findApplicableRules rules d content in
  out ⊆+ rules
  ∧ (∀ rule, rule ∈ out → enabled rule = true)
  ∧ (∀ rule, rule ∈ rules → enabled rule = true →
       conditions rule = mkConditions None None None None None → rule ∈ out)
  ∧ (∀ rules', rules' ≡ₚ rules → findApplicableRules rules' d content ≡ₚ out).
Proof.
  intros out. unfold out. split; [|split; [|split]].
  - unfold findApplicableRules. rewrite Array_sort_perm. apply filter_submseteq.
  - intros rule Hrule. apply findApplicableRules_elem in Hrule as [_ Happlies].
    unfold ruleApplies in Happlies. by destruct (enabled rule).
  - intros rule Hrule Henabled Hnone. apply findApplicableRules_elem.
    split; [done|]. unfold ruleApplies. by rewrite Henabled, Hnone.
  - intros rules' Hperm. unfold findApplicableRules.
    by rewrite !Array_sort_perm, Hperm.
Qed.

(** *** Which flag is recorded *)

Lemma allWrites_snoc (this : Service) (d : DetectionResult) (t : Date)
    (actions : list ResponseAction) (a : ResponseAction) :
  allWrites this d t (actions ++ [a])
  = metadataWrites this d t a ∪ allWrites this d t actions.
Proof. unfold allWrites. by rewrite foldl_app. Qed.

Lemma allWrites_flags_after (this : Service) (d : DetectionResult) (t : Date)
    (l1 l2 : list ResponseAction) (b : ResponseAction) :
  type b = Flag → Forall (fun x => type x ≠ Flag) l2 →
  allWrites this d t (l1 ++ b :: l2) !! "flags"
  = Some (MFlags "automated" (reason b) (severity b) t).
Proof.
  intros Hb. induction l2 as [|x l2 IH] using rev_ind; intros Hl2.
  - rewrite allWrites_snoc. apply lookup_union_Some_l.
    unfold metadataWrites. rewrite Hb. by rewrite lookup_insert_eq.
  - apply Forall_app in Hl2 as [Hl2 Hx]. apply Forall_inv in Hx.
    replace (l1 ++ b :: l2 ++ [x]) with ((l1 ++ b :: l2) ++ [x])
      by (by rewrite <- app_assoc).
    rewrite allWrites_snoc, lookup_union_r; [by apply IH|].
    unfold metadataWrites. destruct (type x); [done| destruct (lt _ _) | | | |];
      by lookup_writes.
Qed.

Lemma last_flag (l : list ResponseAction) (a : ResponseAction) :
  a ∈ l → type a = Flag →
  ∃ l1 b l2, l = l1 ++ b :: l2 ∧ type b = Flag
             ∧ Forall (fun x => type x ≠ Flag) l2.
Proof.
  induction l as [|x l IH] using rev_ind; intros Ha Hflag.
  - by apply elem_of_nil in Ha.
  - destruct (decide (type x = Flag)) as [Hx|Hx].
    + exists l, x, []. by repeat split.
    + apply elem_of_app in Ha as [Ha|Ha].
      2:{ apply list_elem_of_singleton in Ha. by subst. }
      destruct (IH Ha Hflag) as (l1 & b & l2 & -> & Hb & Hl2).
      exists l1, b, (l2 ++ [x]). split; [by rewrite <- app_assoc|]. split; [done|].
      apply Forall_app. split; [done|]. by apply Forall_singleton.
Qed.

Lemma descending_before {A} (rank : A → Z) (l1 l2 : list A) (b a : A) :
  descending rank (l1 ++ b :: l2) → a ∈ l1 → (rank b ≤ rank a)%Z.
Proof.
  unfold descending. induction l1 as [|x l1 IH]; intros Hs Ha.
  - by apply elem_of_nil in Ha.
  - apply StronglySorted_inv in Hs as [Hs Hx].
    apply elem_of_cons in Ha as [->|Ha]; [|by apply IH].
    apply Forall_app in Hx as [_ Hx]. by apply Forall_inv in Hx.
Qed.

Lemma consolidateActions_descending (rules : list EscalationRule) :
  descending derivedPriority (consolidateActions rules).
Proof.
  rewrite consolidateActions_firstOccurrences.
  apply Array_sort_descending. apply priority_comparator.
Qed.

(** X18. When several flag actions are taken in one pass, each
    overwrites [metadata.flags], and the actions run from the highest
    derived priority down: the entry the document is left with is that of
    the least severe flag action taken. *)
Theorem X18_least_severe_flag_is_recorded (this : Service)
    (job : QueueJob ProcessingJob) (w : World) (content : IContent) :
  contents w !! contentId (jobData job) = Some content →
  let d := detectionResult (jobData job) in
  ∀ a, a ∈ actionsFor this d content → type a = Flag →
    ∃ c' b, contents (afterResponse this job w) !! contentId (jobData job) = Some c'
            ∧ b ∈ actionsFor this d content ∧ type b = Flag
            ∧ metadata c' !! "flags"
              = Some (MFlags "automated" (reason b) (severity b) (new_Date w))
            ∧ (∀ a', a' ∈ actionsFor this d content → type a' = Flag →
                 (severityWeight (severity b) ≤ severityWeight (severity a'))%Z).
Proof.
  intros Hc d a Ha Hflag.
  destruct (last_flag _ a Ha Hflag) as (l1 & b & l2 & Hl & Hb & Hl2).
  rewrite afterResponse_contents, Hc. cbv zeta. rewrite lookup_alter_eq, Hc.
  eexists _, b. split; [reflexivity|].
  fold d. rewrite Hl. split; [apply elem_of_app; right; by left|]. split; [done|].
  split.
  - unfold overwrite. cbn [metadata]. apply lookup_union_Some_l.
    by apply allWrites_flags_after.
  - intros a' Ha' Hflag'.
    pose proof (consolidateActions_descending
                  (findApplicableRules (escalationRules this) d content)) as Hs.
    fold (actionsFor this d content) in Hs. rewrite Hl in Hs.
    apply elem_of_app in Ha' as [Ha'|Ha'].
    + pose proof (descending_before _ _ _ _ _ Hs Ha') as Hle.
      unfold derivedPriority in Hle. rewrite Hb, Hflag' in Hle. simpl in Hle. lia.
    + apply elem_of_cons in Ha' as [->|Ha']; [done|].
      eapply Forall_forall in Hl2; [|exact Ha']. done.
Qed.

Lemma X18_witness :
  ∃ c' b,
    contents (afterResponse defaultService
                (mkJob "handle-content"
                   (mkProcessingJob "c1"
                      (mkDetectionResult 0.7 ["hate_speech"] 0.9 "" true) Medium)
                   None None)
                c1_world) !! "c1" = Some c'
    ∧ type b = Flag
    ∧ metadata c' !! "flags"
      = Some (MFlags "automated" (reason b) (severity b) (new_Date c1_world)).
Proof.
  destruct (X18_least_severe_flag_is_recorded defaultService
              (mkJob "handle-content"
                 (mkProcessingJob "c1"
                    (mkDetectionResult 0.7 ["hate_speech"] 0.9 "" true) Medium)
                 None None)
              c1_world _ eq_refl
              (mkAction Flag Medium true "Hate speech detected"))
    as (c' & b & Hc' & _ & Hb & Hflags & _).
  - vm_compute. apply list_elem_of_here.
  - reflexivity.
  - by exists c', b.
Defined.

End ResponseExtras.

(** ** The order of strings *)

Module StringOrder.

Import TrendAnalysisService TrendVocabulary.

Lemma compare_not_Gt_trans (s1 s2 s3 : string) :
  String.compare s1 s2 ≠ Gt → String.compare s2 s3 ≠ Gt → String.compare s1 s3 ≠ Gt.
Proof.
  revert s2 s3. induction s1 as [|c1 s1 IH]; intros [|c2 s2] [|c3 s3];
    cbn [String.compare]; try done.
  unfold Ascii.compare.
  destruct (N.compare_spec (Ascii.N_of_ascii c1) (Ascii.N_of_ascii c2)),
    (N.compare_spec (Ascii.N_of_ascii c2) (Ascii.N_of_ascii c3)),
    (N.compare_spec (Ascii.N_of_ascii c1) (Ascii.N_of_ascii c3));
    try done; try lia.
  apply IH.
Qed.

Lemma precedes_compare (a b : string) : precedes a b ↔ String.compare a b ≠ Gt.
Proof.
  unfold precedes, String.ltb. rewrite (String.compare_antisym a b).
  destruct (String.compare b a); simpl; split; done.
Qed.

Lemma precedes_trans (a b c : string) : precedes a b → precedes b c → precedes a c.
Proof. rewrite !precedes_compare. apply compare_not_Gt_trans. Qed.

Lemma precedes_antisym (a b : string) : precedes a b → precedes b a → a = b.
Proof.
  rewrite !precedes_compare, (String.compare_antisym a b). intros H1 H2.
  apply String.compare_eq_iff. rewrite (String.compare_antisym a b).
  by destruct (String.compare b a).
Qed.

Lemma precedes_ltb (a b : string) : String.ltb a b = true → precedes a b.
Proof.
  unfold precedes, String.ltb. rewrite (String.compare_antisym a b).
  by destruct (String.compare b a).
Qed.

Lemma insert_string_perm (x : string) (l : list string) : insert_string x l ≡ₚ x :: l.
Proof.
  induction l as [|y l IH]; simpl; [done|].
  destruct (String.ltb y x); [|done]. rewrite IH. apply Permutation_swap.
Qed.

Lemma sort_strings_perm (l : list string) : sort_strings l ≡ₚ l.
Proof.
  induction l as [|x l IH]; simpl; [done|].
  by rewrite insert_string_perm, IH.
Qed.

Lemma insert_string_sorted (x : string) (l : list string) :
  StronglySorted precedes l → StronglySorted precedes (insert_string x l).
Proof.
  induction l as [|y l IH]; simpl; intros Hl.
  - by repeat constructor.
  - apply StronglySorted_inv in Hl as [Hl Hy].
    destruct (String.ltb y x) eqn:Hyx.
    + constructor; [by apply IH|].
      rewrite insert_string_perm. constructor; [by apply precedes_ltb|done].
    + constructor; [by constructor|].
      constructor; [done|].
      eapply Forall_impl; [exact Hy|]. intros z Hz. by eapply precedes_trans.
Qed.

Lemma sort_strings_sorted (l : list string) : StronglySorted precedes (sort_strings l).
Proof.
  induction l as [|x l IH]; simpl; [constructor|]. by apply insert_string_sorted.
Qed.

Lemma sorted_unique (l1 l2 : list string) :
  StronglySorted precedes l1 → StronglySorted precedes l2 → l1 ≡ₚ l2 → l1 = l2.
Proof.
  apply StronglySorted_unique_strong. intros. by apply precedes_antisym.
Qed.

(** Sorting forgets the order it was given. *)
Lemma sort_strings_Permutation (l1 l2 : list string) :
  l1 ≡ₚ l2 → sort_strings l1 = sort_strings l2.
Proof.
  intros H. apply sorted_unique; try apply sort_strings_sorted.
  by rewrite !sort_strings_perm.
Qed.

Lemma sort_strings_idemp (l : list string) :
  sort_strings (sort_strings l) = sort_strings l.
Proof. apply sort_strings_Permutation, sort_strings_perm. Qed.

End StringOrder.

(** ** Further properties of the trend service *)

Module TrendExtras.

Import NumberFacts ArrayFacts StringOrder TrendAnalysisService TrendSpec TrendExamples
  TrendVocabulary TrendProofs.

Local Open Scope float_scope.

(** *** The deduplication key *)

Lemma trendKey_normalised (trend : TrendData) :
  getTrendKey (normalised trend) = getTrendKey trend.
Proof.
  unfold normalised, getTrendKey. simpl. by rewrite !sort_strings_idemp.
Qed.


(** *** Consolidation *)

Lemma consolidateTrends_loop (trends : list TrendData) (consolidated : list TrendData)
    (seen : gset string) :
  fst (foldl (fun (acc : list TrendData * gset string) trend =>
                let '(consolidated, seen) := acc in
                let '(key, trend) := getTrendKey trend in
                if bool_decide (key ∈ seen) then (consolidated, seen)
                else (consolidated ++ [trend], {[key]} ∪ seen))
             (consolidated, seen) trends)
  = consolidated ++ firstByKey seen trends.
Proof.
  revert consolidated seen.
  induction trends as [|t trends IH]; intros consolidated seen;
    cbn [foldl firstByKey fst].
  - by rewrite app_nil_r.
  - unfold trendKey, normalised. destruct (getTrendKey t) as [key t'] eqn:Ht.
    cbn [fst snd]. case_bool_decide.
    + apply IH.
    + by rewrite IH, <- app_assoc.
Qed.

Lemma consolidateTrends_firstByKey (trends : list TrendData) :
  consolidateTrends trends ≡ₚ firstByKey ∅ trends.
Proof.
  unfold consolidateTrends. cbv zeta. rewrite Array_sort_perm.
  by rewrite consolidateTrends_loop.
Qed.

Lemma trendKey_normalised_eq (trend : TrendData) :
  trendKey (normalised trend) = trendKey trend.
Proof. unfold trendKey. by rewrite trendKey_normalised. Qed.

Lemma firstByKey_keys (seen : gset string) (l : list TrendData) :
  NoDup (trendKey <$> firstByKey seen l)
  ∧ ∀ t, t ∈ firstByKey seen l → trendKey t ∉ seen.
Proof.
  revert seen. induction l as [|u l IH]; intros seen; simpl.
  - split; [constructor|]. intros t Ht. by apply elem_of_nil in Ht.
  - case_bool_decide as Hu; [apply IH|].
    destruct (IH ({[trendKey u]} ∪ seen)) as [Hnd Hfresh]. split.
    + rewrite fmap_cons, trendKey_normalised_eq. apply NoDup_cons. split; [|done].
      intros Hin. apply list_elem_of_fmap in Hin as (t & Hk & Ht).
      apply Hfresh in Ht. apply Ht, elem_of_union. left.
      by apply elem_of_singleton.
    + intros t Ht. apply elem_of_cons in Ht as [->|Ht].
      * by rewrite trendKey_normalised_eq.
      * apply Hfresh in Ht. intros Hin. apply Ht, elem_of_union. by right.
Qed.

Lemma firstByKey_first (seen : gset string) (l : list TrendData) (t' : TrendData) :
  t' ∈ firstByKey seen l →
  ∃ l1 t l2, l = l1 ++ t :: l2 ∧ t' = normalised t
             ∧ ∀ u, u ∈ l1 → trendKey u ≠ trendKey t.
Proof.
  revert seen. induction l as [|u l IH]; intros seen; simpl.
  - intros Ht. by apply elem_of_nil in Ht.
  - case_bool_decide as Hu.
    + intros Ht. destruct (IH _ Ht) as (l1 & t & l2 & -> & -> & Hfirst).
      exists (u :: l1), t, l2. split; [done|split; [done|]].
      intros v Hv. apply elem_of_cons in Hv as [->|Hv]; [|by apply Hfirst].
      intros Heq. apply (proj2 (firstByKey_keys seen (l1 ++ t :: l2))) in Ht.
      rewrite trendKey_normalised_eq in Ht. congruence.
    + intros Ht. apply elem_of_cons in Ht as [->|Ht].
      * exists [], u, l. split; [done|split; [done|]]. intros v Hv. by apply elem_of_nil in Hv.
      * destruct (IH _ Ht) as (l1 & t & l2 & -> & -> & Hfirst).
        exists (u :: l1), t, l2. split; [done|split; [done|]].
        intros v Hv. apply elem_of_cons in Hv as [->|Hv]; [|by apply Hfirst].
        intros Heq. apply (proj2 (firstByKey_keys _ (l1 ++ t :: l2))) in Ht.
        rewrite trendKey_normalised_eq in Ht. apply Ht, elem_of_union. left.
        by apply elem_of_singleton.
Qed.

Lemma firstByKey_covers (seen : gset string) (l : list TrendData) (t : TrendData) :
  t ∈ l → trendKey t ∈ seen ∨ trendKey t ∈ trendKey <$> firstByKey seen l.
Proof.
  revert seen. induction l as [|u l IH]; intros seen Ht; simpl.
  - by apply elem_of_nil in Ht.
  - apply elem_of_cons in Ht as [->|Ht].
    + case_bool_decide; [by left|]. right. rewrite fmap_cons, trendKey_normalised_eq.
      by left.
    + case_bool_decide; [by apply IH|].
      destruct (IH ({[trendKey u]} ∪ seen) Ht) as [Hin|Hin].
      * apply elem_of_union in Hin as [Hin|Hin]; [|by left].
        apply elem_of_singleton in Hin. right.
        rewrite fmap_cons, trendKey_normalised_eq, Hin. by left.
      * right. rewrite fmap_cons. by right.
Qed.

Lemma firstByKey_length (seen : gset string) (l : list TrendData) :
  (length (firstByKey seen l) ≤ length l)%nat.
Proof.
  revert seen. induction l as [|u l IH]; intros seen; simpl; [done|].
  case_bool_decide; simpl; [specialize (IH seen)|specialize (IH ({[trendKey u]} ∪ seen))];
    lia.
Qed.

(** X20. Consolidation keeps one trend for every key that occurs and
    no two with the same key; the one it keeps is the first with that key
    in the order it is given (so a hashtag trend wins over a keyword or
    cross-platform trend of the same key), with its arrays sorted, and the
    counts of the trends it drops are not merged into it. *)
Theorem X20_consolidation_keeps_first_of_each_key (trends : list TrendData) :
  let out := consolidateTrends trends in
  NoDup (trendKey <$> out)
  ∧ (∀ t, t ∈ trends → trendKey t ∈ trendKey <$> out)
  ∧ (∀ t', t' ∈ out →
       ∃ l1 t l2, trends = l1 ++ t :: l2 ∧ t' = normalised t
                  ∧ ∀ u, u ∈ l1 → trendKey u ≠ trendKey t)
  ∧ (length out ≤ length trends)%nat.
Proof.
  intros out. unfold out.
  pose proof (consolidateTrends_firstByKey trends) as Hperm.
  split; [|split; [|split]].
  - rewrite Hperm. apply firstByKey_keys.
  - intros t Ht. rewrite Hperm.
    destruct (firstByKey_covers ∅ trends t Ht) as [Hin|Hin]; [|done].
    by apply elem_of_empty in Hin.
  - intros t' Ht'. rewrite Hperm in Ht'. by eapply firstByKey_first.
  - rewrite Hperm. apply firstByKey_length.
Qed.

(** *** Where the trends of a cycle come from *)

Lemma consolidateTrends_elem (t' : TrendData) (trends : list TrendData) :
  t' ∈ consolidateTrends trends → ∃ t, t ∈ trends ∧ t' = normalised t.
Proof.
  rewrite consolidateTrends_firstByKey. intros Ht'.
  apply firstByKey_first in Ht' as (l1 & t & l2 & -> & -> & _).
  exists t. split; [|done]. apply elem_of_app. right. by left.
Qed.

(** X21. Every trend a cycle returns was built from a row of one of the
    three queries and carries the id of its pass: [hashtag_<tag>] with the
    tag as its only hashtag, [keyword_<word>] with the word as its only
    keyword, or [crossplatform_<index>] with the position of the row in
    the query result. *)
Theorem X21_cycle_trends_come_from_rows (this : Service)
    (hashtagResults keywordResults : list GroupRow) (crossResults : list CrossRow)
    (w : World) (t : TrendData) :
  t ∈ fst (analyzeCurrentTrends this hashtagResults keywordResults crossResults w) →
  (∃ row, row ∈ hashtagResults ∧ id t = "hashtag_" +:+ row_id row
          ∧ hashtags t = [row_id row] ∧ keywords t = []
          ∧ platforms t = row_platforms row)
  ∨ (∃ row, row ∈ keywordResults ∧ id t = "keyword_" +:+ row_id row
            ∧ hashtags t = [] ∧ keywords t = [row_id row]
            ∧ platforms t = row_platforms row)
  ∨ (∃ index row, crossResults !! index = Some row
                  ∧ id t = "crossplatform_" +:+ pretty index
                  ∧ keywords t = [] ∧ platforms t = cross_platforms row).
Proof.
  unfold analyzeCurrentTrends. cbn [fst]. intros Ht.
  apply consolidateTrends_elem in Ht as (u & Hu & ->).
  apply elem_of_app in Hu as [Hu|Hu]; [|apply elem_of_app in Hu as [Hu|Hu]].
  - left. apply list_elem_of_fmap in Hu as (row & -> & Hrow).
    exists row. split; [done|]. split; [|done].
    change (id (normalised ?x)) with (id x).
    by apply createTrendData_id.
  - right. left. apply list_elem_of_fmap in Hu as (row & -> & Hrow).
    exists row. split; [done|]. split; [|done].
    change (id (normalised ?x)) with (id x).
    by apply createTrendData_id.
  - right. right. apply list_elem_of_lookup in Hu as (index & Hu).
    unfold detectCrossPlatformTrends in Hu. rewrite list_lookup_imap in Hu.
    destruct (crossResults !! index) as [row|] eqn:Hrow; [|done].
    simpl in Hu. injection Hu as <-.
    exists index, row. split; [done|]. split; [|done].
    change (id (normalised ?x)) with (id x).
    by apply createTrendData_id.
Qed.

Lemma X21_witness : ∃ t, t ∈ fst c8_cycle ∧ id t = "hashtag_blackout".
Proof.
  assert (∃ t, t ∈ fst c8_cycle) as (t & Ht).
  { eexists. vm_compute. apply list_elem_of_here. }
  exists t. split; [done|].
  destruct (X21_cycle_trends_come_from_rows c8_service [c8_row] [] [] c8_world t Ht)
    as [(row & Hrow & Hid & _)|[(row & Hrow & _)|(index & row & Hrow & _)]].
  - apply list_elem_of_singleton in Hrow. by subst.
  - by apply elem_of_nil in Hrow.
  - by rewrite lookup_nil in Hrow.
Defined.

(** *** One cycle on the ledger *)

Lemma trend_key_inj (i j : string) : "trend:" +:+ i = "trend:" +:+ j → i = j.
Proof. intros H. by simplify_eq/=. Qed.

Lemma warning_key_inj (i j : string) : "warning:" +:+ i = "warning:" +:+ j → i = j.
Proof. intros H. by simplify_eq/=. Qed.

Lemma warning_key_trend_key (i j : string) : "warning:" +:+ i ≠ "trend:" +:+ j.
Proof. intros H. by simplify_eq/=. Qed.

Lemma storeAndWarn_effect (w : World) (t : TrendData) :
  let w' := storeAndWarn w t in
  let ledger :=
    <["trend:" +:+ id t := (StoredTrend t, 86400%Z)]> (strings (redis w)) in
  clock w' = clock w
  ∧ activeTrends w' = <[id t := harmfulnessScore t * viralityScore t]> (activeTrends w)
  ∧ strings (redis w')
    = (if promoted t
       then <["warning:" +:+ warningId (clock w) t
                := (StoredWarning (warningOf (clock w) t), 604800%Z)]> ledger
       else ledger)
  ∧ activeWarnings w'
    = (if promoted t then [warningId (clock w) t] else []) ++ activeWarnings w
  ∧ ∀ key, key ≠ "warnings:active" →
           lists (redis w') !! key = lists (redis w) !! key.
Proof.
  unfold storeAndWarn, promoted, activeTrends, activeWarnings.
  case_bool_decide; cbn; rewrite ?lookup_insert_eq; repeat split; try done.
  intros key Hkey. by rewrite lookup_insert_ne.
Qed.

Lemma clock_cycle (l : list TrendData) (w : World) :
  clock (foldl storeAndWarn w l) = clock w.
Proof.
  revert w. induction l as [|t l IH]; intros w; simpl; [done|].
  rewrite IH. apply storeAndWarn_effect.
Qed.

Lemma ledger_cycle (l : list TrendData) (w : World) (t : TrendData) :
  t ∈ l →
  ∃ t', t' ∈ l ∧ id t' = id t
        ∧ strings (redis (foldl storeAndWarn w l)) !! ("trend:" +:+ id t)
          = Some (StoredTrend t', 86400%Z)
        ∧ activeTrends (foldl storeAndWarn w l) !! id t
          = Some (harmfulnessScore t' * viralityScore t').
Proof.
  induction l as [|u l IH] using rev_ind; intros Ht; [by apply elem_of_nil in Ht|].
  rewrite foldl_app. cbn [foldl].
  destruct (storeAndWarn_effect (foldl storeAndWarn w l) u)
    as (_ & Hz & Hs & _). cbv zeta in Hz, Hs. rewrite Hz, Hs.
  destruct (decide (id u = id t)) as [Heq|Hne].
  - exists u. split; [apply elem_of_app; right; by left|]. split; [done|].
    rewrite <- Heq. split; [|by rewrite lookup_insert_eq].
    destruct (promoted u).
    + rewrite lookup_insert_ne by apply warning_key_trend_key.
      by rewrite lookup_insert_eq.
    + by rewrite lookup_insert_eq.
  - apply elem_of_app in Ht as [Ht|Ht].
    2:{ apply list_elem_of_singleton in Ht. by subst. }
    destruct (IH Ht) as (t' & Ht' & Hid & Hstored & Hactive).
    exists t'. split; [apply elem_of_app; by left|]. split; [done|].
    split; [|by rewrite lookup_insert_ne].
    assert (Hkey : "trend:" +:+ id u ≠ "trend:" +:+ id t).
    { intros H. by apply trend_key_inj in H. }
    destruct (promoted u).
    + rewrite lookup_insert_ne by apply warning_key_trend_key.
      by rewrite lookup_insert_ne.
    + by rewrite lookup_insert_ne.
Qed.

(** X22. After a cycle every trend it returns can be read back from the
    ledger: under [trend:<id>] there is a trend of the cycle with that id
    (the trend itself when no other carries its id), kept for 24 hours,
    and the id is a member of [trending:active] scored by harmfulness
    times virality. *)
Theorem X22_cycle_stores_every_trend (this : Service)
    (hashtagResults keywordResults : list GroupRow) (crossResults : list CrossRow)
    (w : World) :
  let out :=
    fst (analyzeCurrentTrends this hashtagResults keywordResults crossResults w) in
  let w' :=
    snd (analyzeCurrentTrends this hashtagResults keywordResults crossResults w) in
  ∀ t, t ∈ out →
    ∃ t', t' ∈ out ∧ id t' = id t
          ∧ strings (redis w') !! ("trend:" +:+ id t) = Some (StoredTrend t', 86400%Z)
          ∧ activeTrends w' !! id t = Some (harmfulnessScore t' * viralityScore t')
          ∧ ((∀ u, u ∈ out → id u = id t → u = t) → t' = t).
Proof.
  intros out w' t Ht. unfold out, w', analyzeCurrentTrends in *. cbn [fst snd] in *.
  destruct (ledger_cycle _ w t Ht) as (t' & Ht' & Hid & Hs & Hz).
  exists t'. repeat split; try done. intros Huniq. by apply Huniq.
Qed.

Lemma X22_witness :
  ∃ t', id t' = "hashtag_blackout"
        ∧ storedTrend (snd c8_cycle) "trend:hashtag_blackout" = Some t'.
Proof.
  assert (∃ t, t ∈ fst c8_cycle ∧ id t = "hashtag_blackout") as (t & Ht & Hid).
  { eexists. split; [vm_compute; apply list_elem_of_here|reflexivity]. }
  destruct (X22_cycle_stores_every_trend c8_service [c8_row] [] [] c8_world t Ht)
    as (t' & _ & Hid' & Hs & _).
  exists t'. split; [congruence|].
  unfold storedTrend. rewrite Hid in Hs. unfold c8_cycle.
  change ("trend:" +:+ "hashtag_blackout") with "trend:hashtag_blackout" in Hs.
  by rewrite Hs.
Defined.

Lemma warnings_cycle (l : list TrendData) (w : World) :
  activeWarnings (foldl storeAndWarn w l)
  = reverse (warningId (clock w) <$> filter (fun t => promoted t = true) l)
    ++ activeWarnings w
  ∧ ∀ key, key ≠ "warnings:active" →
           lists (redis (foldl storeAndWarn w l)) !! key = lists (redis w) !! key.
Proof.
  induction l as [|u l IH] using rev_ind; [done|].
  rewrite foldl_app. cbn [foldl].
  destruct (storeAndWarn_effect (foldl storeAndWarn w l) u)
    as (_ & _ & _ & Ha & Hother). cbv zeta in Ha, Hother.
  destruct IH as [IHa IHother]. split.
  - rewrite Ha, IHa, clock_cycle, filter_app, fmap_app, reverse_app, <- app_assoc.
    f_equal. rewrite filter_cons, filter_nil.
    destruct (decide (promoted u = true)) as [->|Hn]; [done|].
    by apply not_true_is_false in Hn as ->.
  - intros key Hkey. by rewrite Hother, IHother.
Qed.

Lemma warning_records_cycle (l : list TrendData) (w : World) (t : TrendData) :
  t ∈ l → promoted t = true →
  ∃ t', t' ∈ l ∧ promoted t' = true
        ∧ warningId (clock w) t' = warningId (clock w) t
        ∧ storedWarning (foldl storeAndWarn w l)
            ("warning:" +:+ warningId (clock w) t)
          = Some (warningOf (clock w) t', 604800%Z).
Proof.
  induction l as [|u l IH] using rev_ind; intros Ht Hp; [by apply elem_of_nil in Ht|].
  rewrite foldl_app. cbn [foldl]. unfold storedWarning.
  destruct (storeAndWarn_effect (foldl storeAndWarn w l) u)
    as (_ & _ & Hs & _). cbv zeta in Hs. rewrite Hs, clock_cycle.
  destruct (decide (warningId (clock w) u = warningId (clock w) t
                    ∧ promoted u = true)) as [[Heq Hpu]|Hne].
  - exists u. split; [apply elem_of_app; right; by left|]. split; [done|].
    split; [done|]. rewrite Hpu, <- Heq. by rewrite lookup_insert_eq.
  - apply elem_of_app in Ht as [Ht|Ht].
    2:{ apply list_elem_of_singleton in Ht. subst. by destruct Hne. }
    destruct (IH Ht Hp) as (t' & Ht' & Hpt' & Hid & Hstored).
    exists t'. split; [apply elem_of_app; by left|]. split; [done|]. split; [done|].
    unfold storedWarning in Hstored.
    destruct (promoted u) eqn:Hpu.
    + rewrite lookup_insert_ne.
      2:{ intros H. apply warning_key_inj in H. by destruct Hne. }
      rewrite lookup_insert_ne; [done|].
      intros H. symmetry in H. by apply warning_key_trend_key in H.
    + rewrite lookup_insert_ne; [done|].
      intros H. symmetry in H. by apply warning_key_trend_key in H.
Qed.

(** X23. A cycle pushes on [warnings:active] one warning id for every
    trend it returns at high or critical risk, the last stored first, and
    none for the others; it writes no other Redis list; and every id it
    pushes resolves, under [warning:<id>], to the warning record of a
    high or critical trend of the cycle, kept for seven days. *)
Theorem X23_cycle_files_one_warning_per_raised_trend (this : Service)
    (hashtagResults keywordResults : list GroupRow) (crossResults : list CrossRow)
    (w : World) :
  let out :=
    fst (analyzeCurrentTrends this hashtagResults keywordResults crossResults w) in
  let w' :=
    snd (analyzeCurrentTrends this hashtagResults keywordResults crossResults w) in
  activeWarnings w'
  = reverse (warningId (clock w) <$> filter (fun t => promoted t = true) out)
    ++ activeWarnings w
  ∧ (∀ key, key ≠ "warnings:active" →
            lists (redis w') !! key = lists (redis w) !! key)
  ∧ (∀ t, t ∈ out → promoted t = true →
       ∃ t', t' ∈ out ∧ promoted t' = true
             ∧ warningId (clock w) t' = warningId (clock w) t
             ∧ storedWarning w' ("warning:" +:+ warningId (clock w) t)
               = Some (warningOf (clock w) t', 604800%Z)).
Proof.
  intros out w'. unfold out, w', analyzeCurrentTrends. cbn [fst snd].
  split; [apply warnings_cycle|]. split; [apply warnings_cycle|].
  intros t Ht Hp. by apply warning_records_cycle.
Qed.

(** *** What a warning recommends *)

(** X24. A warning for a high or critical trend recommends between three
    and six actions, the first three being those of its level; the
    cross-platform, mental-health and safety-warning actions are added
    exactly for more than two platforms, for the category [self_harm]
    and for the category [dangerous_challenge]; a trend at low or medium
    risk gets at most those three. *)
Theorem X24_recommended_actions (trend : TrendData) :
  let actions := generateRecommendedActions trend in
  (riskLevel trend = Critical →
   take 3 actions = ["Immediate human review required";
                     "Consider emergency content removal";
                     "Notify platform partners"])
  ∧ (riskLevel trend = High →
     take 3 actions = ["Escalate to senior moderators";
                       "Increase monitoring frequency";
                       "Prepare response guidelines"])
  ∧ (promoted trend = true → (3 ≤ length actions ≤ 6)%nat)
  ∧ (promoted trend = false → (length actions ≤ 3)%nat)
  ∧ ("Coordinate cross-platform response" ∈ actions
     ↔ (2 < length (platforms trend))%nat)
  ∧ ("Alert mental health support teams" ∈ actions ↔ "self_harm" ∈ categories trend)
  ∧ ("Issue safety warnings" ∈ actions ↔ "dangerous_challenge" ∈ categories trend).
Proof.
  intros actions. unfold actions, generateRecommendedActions, promoted, includes.
  destruct (riskLevel trend);
    repeat case_bool_decide; repeat case_decide; simpl;
    repeat split; try done; try lia; try (intuition congruence);
    try (intros Hin; exfalso;
         repeat (apply elem_of_cons in Hin as [Hin|Hin]; [by cbv in Hin|]);
         by apply elem_of_nil in Hin);
    try (intros _; apply list_elem_of_In; cbv; tauto).
Qed.

(** *** What [createTrendData] fills in *)

Lemma or0_not_nan (x : option number) : is_nan (or0 x) = false.
Proof.
  unfold or0, or_default, or. destruct x as [v|]; [|done].
  destruct (truthy v) eqn:Hv; [|done].
  unfold truthy in Hv. by destruct (is_zero v), (is_nan v).
Qed.

(** X25. Whatever the rows hold, the trend [createTrendData] builds has
    a non-empty id and a harmfulness score, a content count and an average
    engagement that are numbers: a missing, zero or NaN value (as the
    average of a group without content, 0/0) is replaced by 0; missing
    lists are empty; and a trend without platforms is rated as if it had
    one. *)
Theorem X25_createTrendData_defaults (this : Service) (now : Z)
    (data : PartialTrendData) :
  let t := createTrendData this now data in
  id t ≠ ""
  ∧ is_nan (harmfulnessScore t) = false
  ∧ is_nan (contentCount t) = false
  ∧ is_nan (averageEngagement t) = false
  ∧ (p_hashtags data = None → hashtags t = [])
  ∧ (p_keywords data = None → keywords t = [])
  ∧ (p_categories data = None → categories t = [])
  ∧ (p_platforms data = None → platforms t = [])
  ∧ (platforms t = [] →
     riskLevel t = calculateRiskLevel (harmfulnessScore t) (viralityScore t) 1).
Proof.
  intros t. unfold t, createTrendData. cbn.
  repeat split; try apply or0_not_nan; try (by intros ->).
  - destruct (p_id data) as [i|]; [|done].
    unfold truthy_str. by case_bool_decide.
  - destruct (p_platforms data) as [[|p ps]|]; intros H; try done; reflexivity.
Qed.

End TrendExtras.
